(** * The annotation session engine of coding_interface.py

    A shallow embedding of the session logic of the Streamlit script
    [coding_interface.py]: the resume validator, the "Load Session" and
    "Save & Continue" handlers, the navigation buttons, the loading of the
    coding frame in every run and the export of the record list.  Python
    dictionaries are association lists in key order, the Python sets of
    identifiers are [gset]s, the pandas frames are a list of column names
    with a list of rows. *)

From Stdlib Require Import ZArith String Ascii List Lia.
From Stdlib Require Import DecimalString DecimalPos DecimalZ.
From stdpp Require Import base decidable option list strings gmap sets countable.

Local Open Scope string_scope.
Local Open Scope Z_scope.

Local Set Warnings "-clear-no-such-hyp".

(** ** Cell values *)

(** What a cell of a frame or a value of a record dictionary holds: Python's
    [None], the missing marker NaN, a number, or text.  Numbers are the
    integers: a float with an integral value compares equal to that integer
    and hashes like it in Python, and it is the only kind of float pandas
    makes out of what the handlers write (an integer column with missing
    cells).  Numerals with a fractional part and booleans are not
    represented.  Python's [==] on these is [py_eq] below: NaN equals
    nothing, itself included.  In a Python set a NaN is found by the
    identity of the object, and whether two missing cells are one object
    depends on the type of their column (one object in a column of text, an
    object per cell in a column of numbers); the sets of identifiers here
    take NaN for one element, and the statements about them are about
    identifiers that are present. *)
Inductive value : Type :=
  | VNone
  | VNaN
  | VInt (z : Z)
  | VStr (s : string).

#[global] Instance value_eq_dec : EqDecision value.
Proof. solve_decision. Defined.

Definition value_code (v : value) : unit + unit + Z + string :=
  match v with
  | VNone => inl (inl (inl tt))
  | VNaN => inl (inl (inr tt))
  | VInt z => inl (inr z)
  | VStr s => inr s
  end.

Definition value_decode (c : unit + unit + Z + string) : value :=
  match c with
  | inl (inl (inl _)) => VNone
  | inl (inl (inr _)) => VNaN
  | inl (inr z) => VInt z
  | inr s => VStr s
  end.

#[global] Instance value_countable : Countable value.
Proof.
  refine (inj_countable' value_code value_decode _).
  intros []; reflexivity.
Defined.

(** Python's [v == w]. *)
Definition py_eq (v w : value) : bool :=
  match v, w with
  | VNaN, _ | _, VNaN => false
  | _, _ => bool_decide (v = w)
  end.

(** Python truthiness, as [if not coder_name] uses it. *)
Definition truthy (v : value) : bool :=
  match v with
  | VNone => false
  | VNaN => true
  | VInt z => negb (z =? 0)
  | VStr s => negb (String.eqb s "")
  end.

(** [isinstance(v, str)]. *)
Definition is_text (v : value) : bool :=
  match v with
  | VStr _ => true
  | _ => false
  end.

(** A field that holds nothing: [None] as the save handler writes it, NaN
    as a frame read from a file has it. *)
Definition absent (v : value) : Prop := v = VNone \/ v = VNaN.

#[global] Instance absent_dec v : Decision (absent v).
Proof. unfold absent. apply _. Defined.

(** ** Python dictionaries *)

(** A dictionary with string keys, in insertion order. *)
Definition record : Type := list (string * value).

(** [d.get(k)]: the value of the first entry with key [k]. *)
Fixpoint dict_get (k : string) (d : record) : option value :=
  match d with
  | [] => None
  | (k', v) :: d' => if String.eqb k k' then Some v else dict_get k d'
  end.

(** [d.get(k, dflt)]. *)
Definition dict_get_default (k : string) (dflt : value) (d : record) : value :=
  match dict_get k d with
  | Some v => v
  | None => dflt
  end.

(** A cell of a row by column label; a row that has no such cell gives the
    missing marker. *)
Definition field (k : string) (r : record) : value :=
  dict_get_default k VNaN r.

(** [r['coding_id']]. *)
Definition coding_id_of (r : record) : value := field "coding_id" r.

(** ** Text *)

(** [sep.join(l)]. *)
Fixpoint join (sep : string) (l : list string) : string :=
  match l with
  | [] => ""
  | [x] => x
  | x :: l' => x +:+ sep +:+ join sep l'
  end.

(** [s.split('; ')], scanning from the left; [acc] holds the characters of
    the piece being read, last one first. *)
Fixpoint split_aux (s : string) (acc : list ascii) : list string :=
  match s with
  | EmptyString => [string_of_list_ascii (rev acc)]
  | String c rest =>
      match rest with
      | String c' rest' =>
          if Ascii.eqb c ";" && Ascii.eqb c' " "
          then string_of_list_ascii (rev acc) :: split_aux rest' []
          else split_aux rest (c :: acc)
      | EmptyString => split_aux rest (c :: acc)
      end
  end.

Definition split_semicolon (s : string) : list string := split_aux s [].

(** ** Frames *)

(** A pandas frame: the column labels and the rows, each row a list of cells
    in column order. *)
Record table : Type := Table {
  columns : list string;
  rows : list (list value)
}.

(** One row as a dictionary from column label to cell.  A frame has a cell
    for every column in every row: a row given with fewer cells is missing
    the last ones. *)
Definition row_dict (cols : list string) (row : list value) : record :=
  combine cols (row ++ repeat VNaN (length cols - length row)).

(** [df.to_dict('records')]. *)
Definition to_dict_records (df : table) : list record :=
  map (row_dict (columns df)) (rows df).

(** [df[c].tolist()]. *)
Definition column (c : string) (df : table) : list value :=
  map (fun row => field c (row_dict (columns df) row)) (rows df).

(** [df[df[c].isin(ids)]]: the rows whose cell in column [c] is in [ids]. *)
Definition isin_rows (c : string) (ids : gset value) (df : table) : table :=
  Table (columns df)
        (filter (fun row => field c (row_dict (columns df) row) ∈ ids) (rows df)).

(** The keys of a list of dictionaries in order of first appearance. *)
Fixpoint nub (l : list string) : list string :=
  match l with
  | [] => []
  | x :: l' => x :: filter (fun y => y ≠ x) (nub l')
  end.

(** [pd.DataFrame(results)]: one row per dictionary, one column per key; a
    dictionary that lacks a key has a missing cell there. *)
Definition DataFrame (results : list record) : table :=
  let cols := nub (concat (map (map fst) results)) in
  Table cols (map (fun r => map (fun c => field c r) cols) results).

(** ** The text of a CSV file *)

(** The file as pandas writes and reads it, cell by cell: a header line and
    one line per row.  The quoting of cells that hold separators, quotes or
    line breaks is lossless both ways and is not represented. *)
Record csv : Type := Csv {
  header : list string;
  body : list (list string)
}.

Definition print_int (z : Z) : string := NilZero.string_of_int (Z.to_int z).

(** An integer literal: digits, after a sign or without one. *)
Definition parse_int (s : string) : option Z :=
  match s with
  | String "+" digits => Z.of_uint <$> NilZero.uint_of_string digits
  | _ => Z.of_int <$> NilZero.int_of_string s
  end.

(** How [to_csv] writes a cell: nothing for a missing value, the digits for
    a number.  pandas writes the numbers of a column of floats (a column of
    numbers with a missing cell) with ".0" after the digits and reads them
    back as the same numbers; floats are not told from integers here, so
    the text of such a cell differs from the file's while the frame read
    back does not. *)
Definition cell_text (v : value) : string :=
  match v with
  | VNone | VNaN => ""
  | VInt z => print_int z
  | VStr s => s
  end.

(** [df.to_csv(index=False)]. *)
Definition to_csv (df : table) : csv :=
  Csv (columns df) (map (map cell_text) (rows df)).

(** The cell texts [read_csv] takes for a missing value by default. *)
Definition na_values : list string :=
  [""; "#N/A"; "#N/A N/A"; "#NA"; "-1.#IND"; "-1.#QNAN"; "-NaN"; "-nan";
   "1.#IND"; "1.#QNAN"; "<NA>"; "N/A"; "NA"; "NULL"; "NaN"; "None"; "n/a";
   "nan"; "null"].

Definition is_na (s : string) : bool := bool_decide (s ∈ na_values).

Definition is_int (s : string) : bool :=
  match parse_int s with Some _ => true | None => false end.

(** The type [read_csv] infers for a column: numeric when every cell is an
    integer literal or missing, text otherwise.  Numerals that are no
    integer literals (a decimal point, an exponent, blanks around the
    digits), which pandas reads as numbers, and the words it reads as truth
    values are not represented: a column with such a cell is read here as
    text, and the statements about files are about cells that are missing,
    integer literals or plain text. *)
Inductive dtype : Type := Numeric | Object.

Definition column_dtype (cells : list string) : dtype :=
  if forallb (fun s => is_na s || is_int s) cells then Numeric else Object.

Definition read_cell (dt : dtype) (s : string) : value :=
  match dt with
  | Numeric => match parse_int s with Some z => VInt z | None => VNaN end
  | Object => if is_na s then VNaN else VStr s
  end.

(** The types of the first [ncols] columns of the lines of a file, left to
    right: the first cells of the lines make the first column. *)
Fixpoint infer_dtypes (ncols : nat) (lines : list (list string)) : list dtype :=
  match ncols with
  | O => []
  | S n =>
      column_dtype (map (hd "") lines) :: infer_dtypes n (map (@tl string) lines)
  end.

(** [pd.read_csv(file)]. *)
Definition read_csv (c : csv) : table :=
  let dtypes := infer_dtypes (length (header c)) (body c) in
  Table (header c) (map (zip_with read_cell dtypes) (body c)).

(** [get_results_csv(results)]. *)
Definition get_results_csv (results : list record) : csv :=
  to_csv (DataFrame results).

(** ** The Item Store *)

(** A row of the coding frame.  The frame has the columns [coding_id] and
    [quotation]; [description] and [explanation] are optional and shown
    only. *)
Record item : Type := Item {
  coding_id : value;
  quotation : string
}.

(** [coding_df.iloc[i]], with Python's indexing from the end for a negative
    [i]; [None] stands for the IndexError. *)
Definition iloc {A : Type} (l : list A) (i : Z) : option A :=
  if 0 <=? i then l !! Z.to_nat i
  else if 0 <=? Z.of_nat (length l) + i then l !! Z.to_nat (Z.of_nat (length l) + i)
  else None.

(** [get_previous_coding(coding_id, results)]: the first record whose
    [result.get('coding_id')], which is [None] for a record without the
    key, [==] the identifier. *)
Fixpoint get_previous_coding (cid : value) (results : list record) : option record :=
  match results with
  | [] => None
  | result :: rest =>
      if py_eq (dict_get_default "coding_id" VNone result) cid then Some result
      else get_previous_coding cid rest
  end.

(** ** The resume validator *)

(** The second component of what [validate_resume_csv] returns, by the
    format string that makes it. *)
Inductive message : Type :=
  | MissingColumns (missing : gset string)
      (* "Missing required columns: {missing}" *)
  | NoMatch
      (* "No coding_ids in resume file match current data source" *)
  | WarningNotFound (n : nat)
      (* "Warning: {n} coding_ids in resume file not found in current data
         (will be ignored)" *)
  | Validated (n : nat)
      (* "Successfully validated {n} coded arguments" *).

(** ["Warning" in message]. *)
Definition is_warning (m : message) : bool :=
  match m with
  | WarningNotFound _ => true
  | _ => false
  end.

Definition required_cols : gset string :=
  {[ "coding_id"; "coder_name"; "score" ]}.

(** [validate_resume_csv(resume_df, coding_df)]: the triple
    [(is_valid, message, matching_ids)].  The Python sets of identifiers
    are [gset]s: identifiers that are numbers or text are elements as in
    Python; a blank identifier (NaN) is one element here, while in Python
    the blank cells of a column of numbers are an element each, found in no
    other set. *)
Definition validate_resume_csv (resume_df : table) (coding_df : list item)
  : bool * message * gset value :=
  let cols : gset string := list_to_set (columns resume_df) in
  if negb (bool_decide (required_cols ⊆ cols)) then
    (false, MissingColumns (required_cols ∖ cols), ∅)
  else
    let resume_ids : gset value := list_to_set (column "coding_id" resume_df) in
    let coding_ids : gset value := list_to_set (map coding_id coding_df) in
    let matching_ids := resume_ids ∩ coding_ids in
    let unmatched_ids := resume_ids ∖ coding_ids in
    if (size matching_ids =? 0)%nat then (false, NoMatch, ∅)
    else if (0 <? size unmatched_ids)%nat then
      (true, WarningNotFound (size unmatched_ids), matching_ids)
    else (true, Validated (size matching_ids), matching_ids).

(** ** Session state *)

(** [st.session_state]. *)
Record session : Type := Session {
  current_index : Z;
  results : list record;
  coded_ids : gset value;
  widget_version : Z;
  locked_coder_name : option value;
  locked_variable : option value
}.

(** [initialize_session_state()]: the six keys are set together on the first
    run of the script and left as they are on every later run. *)
Definition fresh_session : session :=
  Session 0 [] ∅ 0 None None.

Definition initialize_session_state (st : option session) : session :=
  match st with
  | None => fresh_session
  | Some s => s
  end.

(** ** The sidebar *)

Inductive econ_variable : Type := Inflation | Employment.

Definition econ_variable_text (x : econ_variable) : string :=
  match x with
  | Inflation => "Inflation"
  | Employment => "Employment"
  end.

(** What the annotator has in the two sidebar widgets. *)
Record sidebar_input : Type := SidebarInput {
  typed_name : string;
  selected_variable : econ_variable
}.

(** The sections "Coding Setup" of the sidebar, coder identification and
    variable selection: the coder name and the variable of this run of the
    script, which are the locked values when there are any, the widgets'
    otherwise.  [None] is [st.stop()] on an empty name.  The section "Data
    Source" that follows, with its two [st.stop()], is [data_source_frame]
    below. *)
Definition sidebar (st : session) (ui : sidebar_input) : option (value * value) :=
  let coder_name :=
    match locked_coder_name st with
    | Some v => v
    | None => VStr (typed_name ui)
    end in
  if negb (truthy coder_name) then None
  else
    let variable :=
      match locked_variable st with
      | Some v => v
      | None => VStr (econ_variable_text (selected_variable ui))
      end in
    Some (coder_name, variable).

(** ** The coding form *)

Definition OTHER : string := "Other / No Good Match".

Inductive yes_no : Type := Yes | No.

Definition yes_no_text (x : yes_no) : string :=
  match x with Yes => "Yes" | No => "No" end.

Inductive info_type : Type := PublicInformation | PrivateSpecialized.

Definition info_type_text (x : info_type) : string :=
  match x with
  | PublicInformation => "Public Information"
  | PrivateSpecialized => "Private/Specialized Information"
  end.

(** The bounds of the score widget, [min_value] and [max_value]. *)
Definition score_min_value : Z := -3.
Definition score_max_value : Z := 3.

(** What [st.number_input] can return for the score. *)
Definition number_input_range (z : Z) : Prop :=
  score_min_value <= z <= score_max_value.

(** What the widgets of the form hold when a button is pressed.  The
    check boxes are in the order of the rows of the data category table; a
    widget that the current branch of the form does not show is not read. *)
Record form : Type := Form {
  score : Z;
  cites_data : yes_no;
  data_cat_checked : list bool;
  data_cat_other_checked : bool;
  data_category_other_text : string;
  information_type : info_type;
  argument_category : string;
  argument_category_other_text : string;
  notes : string
}.

(** The names of the checked rows of the data category table. *)
Fixpoint checked_names (names : list string) (checked : list bool) : list string :=
  match names, checked with
  | n :: names', c :: checked' =>
      if c then n :: checked_names names' checked' else checked_names names' checked'
  | _, _ => []
  end.

(** The list [data_categories] the form builds. *)
Definition form_data_categories (data_cat_names : list string) (f : form) : list string :=
  match cites_data f with
  | Yes =>
      checked_names data_cat_names (data_cat_checked f)
      ++ (if data_cat_other_checked f then [OTHER] else [])
  | No => []
  end.

(** The variable [data_category_other]. *)
Definition form_data_category_other (f : form) : value :=
  match cites_data f with
  | Yes =>
      if data_cat_other_checked f then VStr (data_category_other_text f) else VNone
  | No => VNone
  end.

(** The variable [information_type]. *)
Definition form_information_type (f : form) : value :=
  match cites_data f with
  | Yes => VStr (info_type_text (information_type f))
  | No => VNone
  end.

(** The variable [argument_category_other]. *)
Definition form_argument_category_other (f : form) : value :=
  if String.eqb (argument_category f) OTHER
  then VStr (argument_category_other_text f) else VNone.

(** The keys of the dictionary the save handler builds, in its order. *)
Definition result_keys : list string :=
  ["coding_id"; "coder_name"; "variable"; "score"; "cites_data";
   "data_categories"; "data_category_other"; "information_type";
   "argument_category"; "argument_category_other"; "notes"; "coded_at"].

(** The dictionary [result] of the save handler; [now] is
    [datetime.now().isoformat()]. *)
Definition make_result (data_cat_names : list string) (cid coder variable : value)
    (f : form) (now : string) : record :=
  let data_categories := form_data_categories data_cat_names f in
  [ ("coding_id", cid);
    ("coder_name", coder);
    ("variable", variable);
    ("score", VInt (score f));
    ("cites_data", VStr (yes_no_text (cites_data f)));
    ("data_categories",
       match data_categories with
       | [] => VNone
       | _ => VStr (join "; " data_categories)
       end);
    ("data_category_other", form_data_category_other f);
    ("information_type", form_information_type f);
    ("argument_category", VStr (argument_category f));
    ("argument_category_other", form_argument_category_other f);
    ("notes", VStr (notes f));
    ("coded_at", VStr now) ].

(** The index of the first record with [r['coding_id'] == coding_id], as
    the loop of the save handler finds it. *)
Fixpoint existing_idx (cid : value) (rs : list record) : option nat :=
  match rs with
  | [] => None
  | r :: rs' =>
      if py_eq (coding_id_of r) cid then Some 0%nat
      else S <$> existing_idx cid rs'
  end.

(** "Update or append". *)
Definition upsert (rs : list record) (cid : value) (result : record) : list record :=
  match existing_idx cid rs with
  | Some i => <[i := result]> rs
  | None => rs ++ [result]
  end.

(** The default of the score widget, from the previous coding of the item. *)
Definition default_score (previous_coding : option record) : Z :=
  match previous_coding with
  | Some r =>
      match dict_get_default "score" (VInt 0) r with
      | VInt z => z
      | _ => 0
      end
  | None => 0
  end.

(** [st.number_input] raises when its default lies outside its bounds, and
    the script then ends before it reaches the buttons. *)
Definition score_widget_renders (st : session) (cid : value) : bool :=
  let previous_coding :=
    if bool_decide (cid ∈ coded_ids st)
    then get_previous_coding cid (results st) else None in
  let d := default_score previous_coding in
  (score_min_value <=? d) && (d <=? score_max_value).

(** ** The handlers *)

Section Handlers.

(** The frames of a run of the script: the coding frame [coding_df] that
    the section "Data Source" has loaded in this run, and the [name] column
    of the data category table.  The handlers and [step] are one run from
    there on; [main] below is the run with the loading of the frame. *)
Variable coding_df : list item.
Variable data_cat_names : list string.

Definition total_arguments : Z := Z.of_nat (length coding_df).

(** The item the main area shows, when it shows one with its buttons. *)
Definition current_item (st : session) : option item :=
  if current_index st <? total_arguments then
    match iloc coding_df (current_index st) with
    | Some row =>
        if score_widget_renders st (coding_id row) then Some row else None
    | None => None
    end
  else None.

(** The page "All arguments have been reviewed!" takes the place of the form
    when the index is past the items. *)
Definition session_complete_page (st : session) : bool :=
  negb (current_index st <? total_arguments).

(** "Save & Continue", for the coder name and variable of this run.
    [None]: the button is not on the page. *)
Definition save_and_continue (st : session) (coder_name variable : value)
    (f : form) (now : string) : option session :=
  match current_item st with
  | Some row =>
      let cid := coding_id row in
      let locked_name :=
        match locked_coder_name st with Some v => v | None => coder_name end in
      let locked_var :=
        match locked_variable st with Some v => v | None => variable end in
      let result := make_result data_cat_names cid locked_name locked_var f now in
      Some (Session
              (if current_index st <? total_arguments - 1
               then current_index st + 1 else current_index st)
              (upsert (results st) cid result)
              (coded_ids st ∪ {[ cid ]})
              (widget_version st)
              (Some locked_name)
              (Some locked_var))
  | None => None
  end.

(** The index the "Load Session" handler jumps to. *)
Definition jump_target (coded : gset value) : Z :=
  match list_find (fun it => coding_id it ∉ coded) coding_df with
  | Some (idx, _) => Z.of_nat idx
  | None => Z.of_nat (length coding_df) - 1
  end.

(** "Load Session" with the frame read from the uploaded file: the new
    session state with what [validate_resume_csv] said. *)
Definition load_session (st : session) (coder_name variable : value)
    (resume_df : table) : session * (bool * message) :=
  let '(is_valid, msg, matching_ids) := validate_resume_csv resume_df coding_df in
  if negb is_valid then (st, (false, msg))
  else
    let valid_results :=
      to_dict_records (isin_rows "coding_id" matching_ids resume_df) in
    let coded : gset value := list_to_set (map coding_id_of valid_results) in
    let '(name', var') :=
      match valid_results with
      | first :: _ =>
          (Some (dict_get_default "coder_name" coder_name first),
           Some (dict_get_default "variable" variable first))
      | [] => (locked_coder_name st, locked_variable st)
      end in
    (Session (jump_target coded) valid_results coded (widget_version st + 1)
             name' var',
     (true, msg)).

(** "Previous", disabled on the first item. *)
Definition previous (st : session) : session :=
  match current_item st with
  | Some _ =>
      if current_index st =? 0 then st
      else Session (current_index st - 1) (results st) (coded_ids st)
                   (widget_version st) (locked_coder_name st) (locked_variable st)
  | None => st
  end.

(** "Skip", disabled on the last item. *)
Definition skip (st : session) : session :=
  match current_item st with
  | Some _ =>
      if current_index st =? total_arguments - 1 then st
      else Session (current_index st + 1) (results st) (coded_ids st)
                   (widget_version st) (locked_coder_name st) (locked_variable st)
  | None => st
  end.

(** "Go" with the number in "Jump to:", which the widget keeps between 1
    and the number of items. *)
Definition go (st : session) (jump_to : Z) : session :=
  match current_item st with
  | Some _ =>
      if (1 <=? jump_to) && (jump_to <=? total_arguments)
      then Session (jump_to - 1) (results st) (coded_ids st)
                   (widget_version st) (locked_coder_name st) (locked_variable st)
      else st
  | None => st
  end.

(** "Return to Start", on the page shown once the index is past the
    items. *)
Definition return_to_start (st : session) : session :=
  if current_index st <? total_arguments then st
  else Session 0 (results st) (coded_ids st)
               (widget_version st) (locked_coder_name st) (locked_variable st).

(** The progress display of the sidebar: [st.progress] is given
    [n_coded / total_arguments], or 0 for a frame without rows, and raises
    for a fraction above 1; the script then ends before it reaches the
    download button, the resume uploader and the main area. *)
Definition progress_section_runs (st : session) : bool :=
  (total_arguments =? 0) || (Z.of_nat (size (coded_ids st)) <=? total_arguments).

(** The file name of the download button is made with [coder_name.lower()]
    and [variable.lower()] once there are results.  A coder name or variable
    that is not text, as a resume file can lock one, raises there, and the
    script ends before it reaches the resume uploader and the main area. *)
Definition download_section_runs (st : session) (coder_name variable : value) : bool :=
  match results st with
  | [] => true
  | _ => is_text coder_name && is_text variable
  end.

(** The button pressed in a run of the script. *)
Inductive action : Type :=
  | SaveAndContinue (f : form) (now : string)
  | LoadSession (resume_df : table)
  | Previous
  | Skip
  | Go (jump_to : Z)
  | ReturnToStart.

(** One run of the script, with one button pressed, in which the frame
    [coding_df] is loaded. *)
Definition step (st : session) (ui : sidebar_input) (a : action) : session :=
  match sidebar st ui with
  | None => st
  | Some (coder_name, variable) =>
      if negb (progress_section_runs st) then st
      else if negb (download_section_runs st coder_name variable) then st
      else
        match a with
        | SaveAndContinue f now =>
            match save_and_continue st coder_name variable f now with
            | Some st' => st'
            | None => st
            end
        | LoadSession resume_df => fst (load_session st coder_name variable resume_df)
        | Previous => previous st
        | Skip => skip st
        | Go jump_to => go st jump_to
        | ReturnToStart => return_to_start st
        end
  end.

(** A session on one frame: runs of the script one after the other that
    all load the frame [coding_df], as they do while the data source and
    the variable in force are left as they are ([main_runs_same_frame]). *)
Fixpoint run (st : session) (clicks : list (sidebar_input * action)) : session :=
  match clicks with
  | [] => st
  | (ui, a) :: rest => run (step st ui a) rest
  end.

(** Export, then "Load Session" with the exported file. *)
Definition resume_from_export (exported : list record) (st : session)
    (coder_name variable : value) : session * (bool * message) :=
  load_session st coder_name variable (read_csv (get_results_csv exported)).

End Handlers.

(** ** Vocabulary of the statements *)

(** The frame has the three columns the validator asks for. *)
Definition has_required_columns (df : table) : Prop :=
  "coding_id" ∈ columns df ∧ "coder_name" ∈ columns df ∧ "score" ∈ columns df.

(** The [coding_id] cell of a row of a frame. *)
Definition row_id (df : table) (row : list value) : value :=
  field "coding_id" (row_dict (columns df) row).

(** The rows of the frame that "Load Session" keeps for the identifiers
    [ids], and the number of rows it leaves out. *)
Definition accepted_rows (df : table) (ids : gset value) : list (list value) :=
  rows (isin_rows "coding_id" ids df).

Definition dropped_rows (df : table) (ids : gset value) : nat :=
  (length (rows df) - length (accepted_rows df ids))%nat.

(** Every item of the store has an identifier: no [coding_id] cell of the
    coding frame is blank, which would be read as NaN. *)
Definition ids_present (coding_df : list item) : Prop :=
  Forall (λ it, coding_id it ≠ VNaN) coding_df.

(** No [coding_id] cell of the resume frame is blank. *)
Definition file_ids_present (resume_df : table) : Prop :=
  Forall (λ v, v ≠ VNaN) (column "coding_id" resume_df).

(** The identifiers of the records of a session, in list order. *)
Definition record_ids (st : session) : list value :=
  map coding_id_of (results st).

(** The set of coded identifiers is the set of the identifiers of the
    records. *)
Definition coded_ids_agree (st : session) : Prop :=
  coded_ids st = list_to_set (record_ids st).

(** A click that is not "Load Session". *)
Definition not_a_load (click : sidebar_input * action) : Prop :=
  match click.2 with
  | LoadSession _ => False
  | _ => True
  end.

(** A click whose form, when it is a save, holds a score the score widget
    can return. *)
Definition score_from_widget (click : sidebar_input * action) : Prop :=
  match click.2 with
  | SaveAndContinue f _ => number_input_range (score f)
  | _ => True
  end.

(** Two session states with the same records, coded identifiers and locked
    values: what a click that neither saves nor loads keeps. *)
Definition same_records (st st' : session) : Prop :=
  results st' = results st ∧ coded_ids st' = coded_ids st ∧
  locked_coder_name st' = locked_coder_name st ∧
  locked_variable st' = locked_variable st.

(** Two records that agree on every field but the time stamp. *)
Definition same_but_timestamp (r1 r2 : record) : Prop :=
  ∀ k : string, k ≠ "coded_at" → dict_get k r1 = dict_get k r2.

(** A form in which an "Other" choice is made and its text is left empty. *)
Definition incomplete_form (f : form) : Prop :=
  (cites_data f = Yes ∧ data_cat_other_checked f = true ∧
   data_category_other_text f = "")
  ∨ (argument_category f = OTHER ∧ argument_category_other_text f = "").

(** The score of a record is a number from -3 to 3. *)
Definition score_in_range (r : record) : Prop :=
  ∃ z : Z, dict_get "score" r = Some (VInt z) ∧ -3 <= z <= 3.

(** A click that, when it is a load, brings a file whose scores are all
    numbers from -3 to 3. *)
Definition scores_in_file (click : sidebar_input * action) : Prop :=
  match click.2 with
  | LoadSession resume_df => Forall score_in_range (to_dict_records resume_df)
  | _ => True
  end.

(** The record carries the locked coder name and variable of the session. *)
Definition carries_locked (st : session) (r : record) : Prop :=
  is_Some (locked_coder_name st) ∧ dict_get "coder_name" r = locked_coder_name st ∧
  is_Some (locked_variable st) ∧ dict_get "variable" r = locked_variable st.

(** Conditional-field integrity of a record: without cited data the three
    data fields are absent; a text for the "Other" data category comes only
    with that category among the data categories; a text for the "Other"
    argument category comes only with that category. *)
Definition conditional_fields_ok (r : record) : Prop :=
  (field "cites_data" r = VStr "No" →
     absent (field "data_categories" r) ∧
     absent (field "data_category_other" r) ∧
     absent (field "information_type" r)) ∧
  (¬ absent (field "data_category_other" r) →
     ∃ s, field "data_categories" r = VStr s ∧ OTHER ∈ split_semicolon s) ∧
  (field "argument_category" r ≠ VStr OTHER →
     absent (field "argument_category_other" r)).

(** A click that, when it is a load, brings a file whose rows all have
    conditional-field integrity. *)
Definition fields_in_file (click : sidebar_input * action) : Prop :=
  match click.2 with
  | LoadSession resume_df => Forall conditional_fields_ok (to_dict_records resume_df)
  | _ => True
  end.

(** Text that comes back from a CSV file as the text it was: it starts
    with a letter and is, whatever its case, none of the words pandas reads
    as a missing value, a number or a truth value. *)
Definition is_letter (c : ascii) : bool :=
  let n := nat_of_ascii c in
  ((65 <=? n)%nat && (n <=? 90)%nat) || ((97 <=? n)%nat && (n <=? 122)%nat).

Definition lower (c : ascii) : ascii :=
  let n := nat_of_ascii c in
  if ((65 <=? n)%nat && (n <=? 90)%nat) then ascii_of_nat (n + 32) else c.

Fixpoint lowercase (s : string) : string :=
  match s with
  | EmptyString => EmptyString
  | String c s' => String (lower c) (lowercase s')
  end.

Definition reserved_words : list string :=
  ["na"; "n/a"; "nan"; "null"; "none"; "inf"; "infinity"; "true"; "false"].

Definition plain_text (s : string) : bool :=
  match s with
  | EmptyString => false
  | String c _ => is_letter c && negb (bool_decide (lowercase s ∈ reserved_words))
  end.

(** A value that a CSV file gives back: an absent one, as absent, or plain
    text. *)
Definition survives_csv (v : value) : Prop :=
  absent v ∨ ∃ s, v = VStr s ∧ plain_text s = true.

(** Two values that are the same, or both absent. *)
Definition same_value (v v' : value) : Prop :=
  v' = v ∨ (absent v ∧ absent v').

(** The fields of a record that hold one of a fixed set of choices. *)
Definition categorical_fields : list string :=
  ["variable"; "cites_data"; "data_categories"; "information_type";
   "argument_category"].

(** Two records with the same identifier, the same score (a missing score
    being missing in both) and the same categorical fields, an absent field
    being absent in both. *)
Definition equivalent_records (r r' : record) : Prop :=
  field "coding_id" r' = field "coding_id" r ∧
  field "score" r' = field "score" r ∧
  ∀ k, k ∈ categorical_fields → same_value (field k r) (field k r').

(** A record with the three keys the validator asks of a file: every
    record the save handler writes has them, and every row of a file the
    validator lets through. *)
Definition has_required_keys (r : record) : Prop :=
  is_Some (dict_get "coding_id" r) ∧ is_Some (dict_get "coder_name" r) ∧
  is_Some (dict_get "score" r).

(** Records whose identifiers, scores and categorical fields a CSV file
    gives back: identifiers that are all numbers or all plain text, scores
    that are numbers or missing cells, and categorical fields that are
    absent or plain text. *)
Definition csv_safe (rs : list record) : Prop :=
  (Forall (λ r, ∃ z, coding_id_of r = VInt z) rs ∨
   Forall (λ r, ∃ s, coding_id_of r = VStr s ∧ plain_text s = true) rs) ∧
  Forall (λ r, (∃ z, field "score" r = VInt z) ∨ field "score" r = VNaN) rs ∧
  Forall (λ r, ∀ k, k ∈ categorical_fields → survives_csv (field k r)) rs.

(** A record list that export and resume give back: records of a session
    on the store, whatever their keys beyond the required ones, that a CSV
    file gives back. *)
Definition exportable (coding_df : list item) (rs : list record) : Prop :=
  rs ≠ [] ∧
  Forall has_required_keys rs ∧
  Forall (λ r, coding_id_of r ∈ map coding_id coding_df) rs ∧
  csv_safe rs.

(** The type [read_csv] infers for the column [k] of the export of [rs]. *)
Definition exported_dtype (rs : list record) (k : string) : dtype :=
  column_dtype (map (λ r, cell_text (field k r)) rs).

(** ** Scenarios *)

Module Scenario.

(** A store of three items. *)
Definition store : list item :=
  [Item (VStr "Q1") "first quotation";
   Item (VStr "Q2") "second quotation";
   Item (VStr "Q3") "third quotation"].

Definition data_cats : list string := ["Labor Market"; "Prices"].

Definition ann : sidebar_input := SidebarInput "Ann" Inflation.

(** A resume file with the identifiers Q1 and Q5. *)
Definition q1_q5 : table :=
  Table ["coding_id"; "coder_name"; "score"]
        [[VStr "Q1"; VStr "Ann"; VInt 1];
         [VStr "Q5"; VStr "Ann"; VInt 2]].

(** A resume file in which the identifier Q5 comes twice. *)
Definition q1_q5_q5 : table :=
  Table ["coding_id"; "coder_name"; "score"]
        [[VStr "Q1"; VStr "Ann"; VInt 1];
         [VStr "Q5"; VStr "Ann"; VInt 2];
         [VStr "Q5"; VStr "Ann"; VInt 3]].

(** Forms: no data cited; data cited with the "Other" category described. *)
Definition growth : form :=
  Form 2 No [] false "" PublicInformation "Growth" "" "".

Definition survey : form :=
  Form (-1) Yes [true; false] true "a regional survey" PrivateSpecialized
       "Other / No Good Match" "fits no category" "unclear".

(** A session that saves the three items one after the other. *)
Definition three_saves : list (sidebar_input * action) :=
  [(ann, SaveAndContinue growth "2024-05-01T10:00:00");
   (ann, SaveAndContinue survey "2024-05-01T10:01:00");
   (ann, SaveAndContinue growth "2024-05-01T10:02:00")].

(** A resume file in which the identifier Q1 comes twice. *)
Definition q1_q1 : table :=
  Table ["coding_id"; "coder_name"; "score"]
        [[VStr "Q1"; VStr "Ann"; VInt 1];
         [VStr "Q1"; VStr "Ann"; VInt 2]].

(** The resume of that file, a step back to the first item, and a save
    there. *)
Definition resume_then_save_q1 : list (sidebar_input * action) :=
  [(ann, LoadSession q1_q1);
   (ann, Previous);
   (ann, SaveAndContinue growth "2024-05-01T10:00:00")].

(** The "Other" data category checked and no text given for it. *)
Definition other_without_text : form :=
  Form 1 Yes [false; false] true "" PublicInformation "Growth" "" "".

(** A resume file with a score of 7. *)
Definition score_seven : table :=
  Table ["coding_id"; "coder_name"; "score"]
        [[VStr "Q1"; VStr "Ann"; VInt 7]].

(** A resume file whose row cites no data and names a data category. *)
Definition stale_data_categories : table :=
  Table ["coding_id"; "coder_name"; "score"; "cites_data"; "data_categories"]
        [[VStr "Q1"; VStr "Ann"; VInt 1; VStr "No"; VStr "Prices"]].

End Scenario.

(** ** The defaults of the form *)

(** [previous_coding.get(k, dflt) if previous_coding else dflt]. *)
Definition prev_field (k : string) (dflt : value) (previous_coding : option record)
  : value :=
  match previous_coding with
  | Some r => dict_get_default k dflt r
  | None => dflt
  end.

(** The option the radio "Does the speaker cite specific data or
    information?" starts on. *)
Definition default_cites_data (previous_coding : option record) : yes_no :=
  match prev_field "cites_data" (VStr "No") previous_coding with
  | VStr s => if String.eqb s "Yes" then Yes else No
  | _ => No
  end.

(** The list [prev_data_cats]. *)
Definition prev_data_cats (previous_coding : option record) : list string :=
  match prev_field "data_categories" (VStr "") previous_coding with
  | VStr s => if String.eqb s "" then [] else split_semicolon s
  | _ => []
  end.

(** The check boxes of the rows of the data category table that start
    checked, and the one of "Other / No Good Match". *)
Definition default_checked (data_cat_names : list string)
    (previous_coding : option record) : list bool :=
  map (fun name => bool_decide (name ∈ prev_data_cats previous_coding)) data_cat_names.

Definition default_other_checked (previous_coding : option record) : bool :=
  bool_decide (OTHER ∈ prev_data_cats previous_coding).

(** The text [prev_data_other]. *)
Definition prev_data_other (previous_coding : option record) : string :=
  match prev_field "data_category_other" (VStr "") previous_coding with
  | VStr s => s
  | _ => ""
  end.

(** The option the radio "Information type:" starts on. *)
Definition default_information_type (previous_coding : option record) : info_type :=
  match prev_field "information_type" (VStr "Public Information") previous_coding with
  | VStr s => if String.eqb s "Public Information"
              then PublicInformation else PrivateSpecialized
  | _ => PublicInformation
  end.

(** The list [category_options] for the category names of the variable. *)
Definition category_options (var_category_names : list string) : list string :=
  var_category_names ++ [OTHER].

(** [l.index(x)], the place of the first [x]. *)
Fixpoint list_index (x : string) (l : list string) : option nat :=
  match l with
  | [] => None
  | y :: l' => if String.eqb x y then Some O else S <$> list_index x l'
  end.

(** The text [prev_arg_cat] and the index [default_cat_index] the select box
    starts on. *)
Definition prev_arg_cat (options : list string) (previous_coding : option record)
  : string :=
  let first := hd OTHER options in
  match prev_field "argument_category" (VStr first) previous_coding with
  | VStr s => s
  | _ => first
  end.

Definition default_cat_index (options : list string)
    (previous_coding : option record) : nat :=
  match list_index (prev_arg_cat options previous_coding) options with
  | Some i => i
  | None => O
  end.

(** The texts [prev_arg_other] and [prev_notes]. *)
Definition prev_arg_other (previous_coding : option record) : string :=
  match prev_field "argument_category_other" (VStr "") previous_coding with
  | VStr s => s
  | _ => ""
  end.

Definition prev_notes (previous_coding : option record) : string :=
  match prev_field "notes" (VStr "") previous_coding with
  | VStr s => s
  | _ => ""
  end.

(** What the widgets of the form hold when the item is shown and nothing is
    entered: each widget at its default.  The widgets that are shown only
    under "Yes" or under "Other / No Good Match" are given their default
    too; [make_result] reads them only where the code does.  The limits
    max_chars of the text areas are not modelled. *)
Definition default_form (data_cat_names var_category_names : list string)
    (previous_coding : option record) : form :=
  let options := category_options var_category_names in
  Form (default_score previous_coding)
       (default_cites_data previous_coding)
       (default_checked data_cat_names previous_coding)
       (default_other_checked previous_coding)
       (prev_data_other previous_coding)
       (default_information_type previous_coding)
       (nth (default_cat_index options previous_coding) options OTHER)
       (prev_arg_other previous_coding)
       (prev_notes previous_coding).


(** The text holds the separator "; " somewhere. *)
Fixpoint has_separator (s : string) : bool :=
  match s with
  | EmptyString => false
  | String c rest =>
      match rest with
      | String c' _ => (Ascii.eqb c ";" && Ascii.eqb c' " ") || has_separator rest
      | EmptyString => false
      end
  end.

(** A name of a data category that the split of a joined list gives back:
    not empty, without the separator. *)
Definition splittable (name : string) : Prop :=
  name ≠ "" ∧ has_separator name = false.

(** A resume file without the column score. *)
Definition no_score_column : table :=
  Table ["coding_id"; "coder_name"] [[VStr "Q1"; VStr "Ann"]].

(** The keys of a record that the form reads as text. *)
Definition optional_keys : list string :=
  ["cites_data"; "data_categories"; "data_category_other"; "information_type";
   "argument_category"; "argument_category_other"; "notes"].

(** A record of a resume file that has the required columns only. *)
Definition required_only : record :=
  [("coding_id", VStr "Q1"); ("coder_name", VStr "Ann"); ("score", VInt 1)].

(** A click on one of the buttons that move the cursor. *)
Definition is_navigation (click : sidebar_input * action) : Prop :=
  match click.2 with
  | SaveAndContinue _ _ | LoadSession _ => False
  | _ => True
  end.

(** ** The data source and the runs of the script *)

(** The section "Data Source" of the sidebar: the default sample of the
    variable, or a file of the annotator's, which is there or not yet. *)
Inductive data_source : Type :=
  | UseDefaultSample
  | UploadCustomFile (uploaded_file : option (list item)).

(** [load_coding_data(variable)].  [samples] are the default samples on
    disk: for the name of a file, which is made with [variable.lower()]
    (here of the letters A to Z), the frame of the file when the file is
    there.  [None]: there is no such file and the script stops; or the
    variable is not text, as a resume file can lock one, [variable.lower()]
    raises and the run ends there as well. *)
Definition load_coding_data (samples : string → option (list item)) (variable : value)
  : option (list item) :=
  match variable with
  | VStr s => samples (lowercase s)
  | _ => None
  end.

(** The frame [coding_df] of a run of the script; [None] when the script
    ends in the section "Data Source". *)
Definition data_source_frame (samples : string → option (list item)) (variable : value)
    (src : data_source) : option (list item) :=
  match src with
  | UseDefaultSample => load_coding_data samples variable
  | UploadCustomFile uploaded_file => uploaded_file
  end.



(** One run of [main()] with one button pressed: the frame is loaded anew
    in every run, from the variable and the data source of that run, and
    [step] is the run from there on.  The two category tables are taken as
    loaded: where their files are missing or do not load, every run stops
    before the sidebar. *)
Definition main (samples : string → option (list item)) (data_cat_names : list string)
    (st : session) (ui : sidebar_input) (src : data_source) (a : action) : session :=
  match sidebar st ui with
  | None => st
  | Some (_, variable) =>
      match data_source_frame samples variable src with
      | None => st
      | Some coding_df => step coding_df data_cat_names st ui a
      end
  end.

(** A session: the runs of [main()] one after the other, each with its
    sidebar widgets, its data source and its button. *)
Fixpoint main_runs (samples : string → option (list item)) (data_cat_names : list string)
    (st : session) (clicks : list (sidebar_input * data_source * action)) : session :=
  match clicks with
  | [] => st
  | c :: rest =>
      main_runs samples data_cat_names (main samples data_cat_names st c.1.1 c.1.2 c.2) rest
  end.

(** The sidebar widgets and the button of a run. *)
Definition button (c : sidebar_input * data_source * action) : sidebar_input * action :=
  (c.1.1, c.2).

(** The run loads the frame [coding_df] when it gets to the data source. *)
Definition loads_frame (samples : string → option (list item)) (coding_df : list item)
    (st : session) (c : sidebar_input * data_source * action) : Prop :=
  ∀ coder_name variable,
    sidebar st c.1.1 = Some (coder_name, variable) →
    data_source_frame samples variable c.1.2 = Some coding_df.

(** Every run of the session loads the frame [coding_df]: the data source
    and the variable in force are not changed to another frame. *)
Fixpoint every_run_loads (samples : string → option (list item)) (coding_df : list item)
    (data_cat_names : list string) (st : session)
    (clicks : list (sidebar_input * data_source * action)) : Prop :=
  match clicks with
  | [] => True
  | c :: rest =>
      loads_frame samples coding_df st c ∧
      every_run_loads samples coding_df data_cat_names
                      (main samples data_cat_names st c.1.1 c.1.2 c.2) rest
  end.


(** The default samples of the scenarios: the store is the sample of
    Inflation, and there is no sample of Employment. *)
Definition inflation_sample (name : string) : option (list item) :=
  if String.eqb name "inflation" then Some Scenario.store else None.

(** The three saves of scenario A on the default sample. *)
Definition three_saves_on_sample : list (sidebar_input * data_source * action) :=
  map (λ c, (c.1, UseDefaultSample, c.2)) Scenario.three_saves.

(** ** The resume validator: proofs *)

(** The tests of the validator on the sizes of its sets, as conditions on
    the sets. *)
Lemma validate_resume_csv_cases (resume_df : table) (coding_df : list item) :
  let cols : gset string := list_to_set (columns resume_df) in
  let table_ids : gset value := list_to_set (column "coding_id" resume_df) in
  let store_ids : gset value := list_to_set (map coding_id coding_df) in
  validate_resume_csv resume_df coding_df =
    if decide (required_cols ⊆ cols) then
      if decide (table_ids ∩ store_ids = ∅) then (false, NoMatch, ∅)
      else if decide (table_ids ⊆ store_ids) then
        (true, Validated (size (table_ids ∩ store_ids)), table_ids ∩ store_ids)
      else
        (true, WarningNotFound (size (table_ids ∖ store_ids)), table_ids ∩ store_ids)
    else (false, MissingColumns (required_cols ∖ cols), ∅).
Proof.
  intros cols table_ids store_ids.
  unfold validate_resume_csv. fold cols table_ids store_ids.
  clearbody cols table_ids store_ids.
  destruct (decide (required_cols ⊆ cols)) as [Hc|Hc].
  - rewrite bool_decide_eq_true_2 by done. simpl.
    destruct (decide (table_ids ∩ store_ids = ∅)) as [He|He].
    + rewrite He, size_empty. reflexivity.
    + assert (size (table_ids ∩ store_ids) ≠ 0%nat) as Hs.
      { intros Hs. apply He, leibniz_equiv, size_empty_iff, Hs. }
      apply Nat.eqb_neq in Hs. rewrite Hs.
      destruct (decide (table_ids ⊆ store_ids)) as [Hsub|Hsub].
      * assert (table_ids ∖ store_ids = ∅) as -> by set_solver.
        rewrite size_empty. reflexivity.
      * assert (size (table_ids ∖ store_ids) ≠ 0%nat) as Hd.
        { intros Hd. apply size_empty_iff in Hd. apply Hsub. set_solver. }
        assert ((0 <? size (table_ids ∖ store_ids))%nat = true) as ->
          by (apply Nat.ltb_lt; lia).
        reflexivity.
  - rewrite bool_decide_eq_false_2 by done. reflexivity.
Qed.

Lemma has_required_columns_subseteq (df : table) :
  required_cols ⊆ (list_to_set (columns df) : gset string) ↔ has_required_columns df.
Proof.
  unfold required_cols, has_required_columns. set_unfold. naive_solver.
Qed.

(** Without repeated elements, the members of a list outside a set are as
    many as the elements of the list outside it. *)
Lemma size_difference_filter (l : list value) (S : gset value) :
  NoDup l →
  size ((list_to_set l : gset value) ∖ S) = length (filter (λ x, x ∉ S) l).
Proof.
  induction 1 as [|x l Hx Hl IH]; simpl.
  - rewrite difference_disjoint_L by set_solver. apply size_empty.
  - rewrite filter_cons. destruct (decide (x ∉ S)) as [Hn|Hn]; simpl.
    + rewrite <- IH.
      assert (({[x]} ∪ list_to_set l) ∖ S = {[x]} ∪ ((list_to_set l : gset value) ∖ S))
        as -> by set_solver.
      rewrite size_union by set_solver. rewrite size_singleton. reflexivity.
    + rewrite <- IH. f_equal. apply dec_stable in Hn. set_solver.
Qed.

Lemma length_filter_complement {A} (P : A → Prop) `{∀ x, Decision (P x)} (l : list A) :
  (length l - length (filter P l))%nat = length (filter (λ x, ¬ P x) l).
Proof.
  pose proof (filter_app_complement P l) as Hp.
  apply Permutation_length in Hp. rewrite length_app in Hp. lia.
Qed.

Lemma filter_map_comm {A B} (g : A → B) (P : B → Prop) `{∀ y, Decision (P y)}
    (l : list A) :
  filter P (map g l) = map g (filter (λ x, P (g x)) l).
Proof.
  induction l as [|a l IH]; [reflexivity|]. simpl.
  rewrite !filter_cons. destruct (decide (P (g a))); simpl; by rewrite IH.
Qed.

Lemma filter_inter_known {A} (g : A → value) (T S : gset value) (l : list A) :
  Forall (λ x, g x ∈ T) l →
  filter (λ x, g x ∈ T ∩ S) l = filter (λ x, g x ∈ S) l.
Proof.
  induction 1 as [|x l Hx Hl IH]; [reflexivity|].
  rewrite !filter_cons.
  destruct (decide (g x ∈ S)) as [Hs|Hs].
  - rewrite decide_True by set_solver. by rewrite IH.
  - rewrite decide_False by set_solver. apply IH.
Qed.

(** The rows kept for the identifiers common to file and store are the rows
    whose identifier is in the store. *)
Lemma accepted_rows_store (df : table) (S : gset value) :
  accepted_rows df ((list_to_set (column "coding_id" df) : gset value) ∩ S)
  = filter (λ row, row_id df row ∈ S) (rows df).
Proof.
  unfold accepted_rows, isin_rows, column. simpl. fold (row_id df).
  apply (filter_inter_known (row_id df)).
  apply Forall_forall. intros row Hrow. apply elem_of_list_to_set.
  apply list_elem_of_In, in_map, Hrow.
Qed.

(** C2 (as amended): on every resume frame and Item Store the validator
    fails for the schema exactly when one of the columns coding_id,
    coder_name, score is lacking.  Otherwise, for a frame whose coding_id
    cells are all present (none is blank, which would be read as NaN), it
    fails for want of overlap exactly when no coding_id of the frame is one
    of the store; otherwise it succeeds with the common identifiers, the
    rows kept are exactly the rows whose coding_id is among them, and the
    message is a warning exactly when some coding_id of the frame is not in
    the store.  The warning states the number of distinct coding_ids of the
    frame that are not in the store, which is the number of rows left out
    when no coding_id is repeated in the frame. *)
Theorem C2_validate_resume_csv_outcomes (resume_df : table) (coding_df : list item) :
  let table_ids : gset value := list_to_set (column "coding_id" resume_df) in
  let store_ids : gset value := list_to_set (map coding_id coding_df) in
  let v := validate_resume_csv resume_df coding_df in
  ((∃ missing, v = (false, MissingColumns missing, ∅)) ↔
     ¬ has_required_columns resume_df) ∧
  (file_ids_present resume_df →
   (v = (false, NoMatch, ∅) ↔
      has_required_columns resume_df ∧ table_ids ∩ store_ids = ∅) ∧
   (v.1.1 = true ↔
      has_required_columns resume_df ∧ table_ids ∩ store_ids ≠ ∅) ∧
   (v.1.1 = true →
      v.2 = table_ids ∩ store_ids ∧
      (∀ row, row ∈ accepted_rows resume_df v.2 ↔
              row ∈ rows resume_df ∧ row_id resume_df row ∈ table_ids ∩ store_ids) ∧
      accepted_rows resume_df v.2
        = filter (λ row, row_id resume_df row ∈ store_ids) (rows resume_df) ∧
      (is_warning v.1.2 = true ↔ ¬ table_ids ⊆ store_ids) ∧
      (is_warning v.1.2 = true →
         v.1.2 = WarningNotFound (size (table_ids ∖ store_ids)))) ∧
   (NoDup (column "coding_id" resume_df) →
      size (table_ids ∖ store_ids) = dropped_rows resume_df (table_ids ∩ store_ids))).
Proof.
  intros table_ids store_ids v.
  pose proof (validate_resume_csv_cases resume_df coding_df) as Hv.
  cbv zeta in Hv. fold table_ids store_ids v in Hv.
  pose proof (has_required_columns_subseteq resume_df) as Hreq.
  assert (v.1.1 = true → v.2 = table_ids ∩ store_ids) as Hids.
  { rewrite Hv. repeat case_decide; simpl; done. }
  split; [|intros _; split; [|split; [|split]]].
  - split.
    + intros [missing Hm]. rewrite Hm in Hv.
      repeat case_decide; try discriminate. by rewrite <- Hreq.
    + intros Hno. rewrite Hv. rewrite decide_False by (by rewrite Hreq). eauto.
  - split.
    + intros Hm. rewrite Hm in Hv.
      repeat case_decide; try discriminate. split; [by apply Hreq | done].
    + intros [Hc He]. rewrite Hv.
      rewrite decide_True by (by apply Hreq). by rewrite decide_True.
  - split.
    + rewrite Hv. repeat case_decide; simpl; try discriminate;
        intros _; (split; [by apply Hreq | done]).
    + intros [Hc He]. rewrite Hv.
      rewrite decide_True by (by apply Hreq). rewrite decide_False by done.
      destruct (decide (table_ids ⊆ store_ids)); reflexivity.
  - intros Hok. rewrite (Hids Hok).
    split; [reflexivity|]. split; [|split; [|split]].
    + intros row. unfold accepted_rows, isin_rows. simpl.
      rewrite list_elem_of_filter. fold (row_id resume_df row). tauto.
    + apply accepted_rows_store.
    + revert Hok. rewrite Hv. repeat case_decide; simpl; try discriminate; done.
    + revert Hok. rewrite Hv. repeat case_decide; simpl; try discriminate; done.
  - intros Hnd. unfold dropped_rows. subst table_ids.
    rewrite accepted_rows_store, length_filter_complement.
    rewrite size_difference_filter by done.
    unfold column. fold (row_id resume_df).
    rewrite filter_map_comm, length_map. reflexivity.
Qed.

(** The same at the file of scenario C with Q5 twice: no coding_id is
    repeated in the two-row file, and its warning counts one row. *)
Lemma C2_validate_resume_csv_outcomes_witness :
  file_ids_present Scenario.q1_q5 ∧
  NoDup (column "coding_id" Scenario.q1_q5) ∧
  validate_resume_csv Scenario.q1_q5 Scenario.store
    = (true, WarningNotFound 1, {[ VStr "Q1" ]}) ∧
  dropped_rows Scenario.q1_q5 {[ VStr "Q1" ]} = 1%nat.
Proof.
  assert (file_ids_present Scenario.q1_q5) as Hfile
    by (repeat constructor; discriminate).
  pose proof (C2_validate_resume_csv_outcomes Scenario.q1_q5 Scenario.store) as H.
  cbv zeta in H. destruct H as (_ & H). destruct (H Hfile) as (_ & _ & _ & Hcount).
  assert (NoDup (column "coding_id" Scenario.q1_q5)) as Hnd
    by (apply (bool_decide_unpack _); vm_compute; exact I).
  split; [exact Hfile|].
  split; [exact Hnd|]. split; [vm_compute; reflexivity|].
  specialize (Hcount Hnd). vm_compute in Hcount. vm_compute. congruence.
Defined.

(** C2 as stated fails: with the coding_id Q5 on two rows of the file, the
    warning says 1 while two rows are left out. *)
Lemma C2_warning_counts_ids_not_rows :
  ¬ (∀ (resume_df : table) (coding_df : list item) (n : nat) (ids : gset value),
       validate_resume_csv resume_df coding_df = (true, WarningNotFound n, ids) →
       n = dropped_rows resume_df ids).
Proof.
  intros H.
  specialize (H Scenario.q1_q5_q5 Scenario.store 1%nat {[ VStr "Q1" ]}).
  assert (1%nat = dropped_rows Scenario.q1_q5_q5 {[ VStr "Q1" ]}) as Hbad.
  { apply H. vm_compute. reflexivity. }
  vm_compute in Hbad. discriminate.
Qed.

(** ** "Load Session": proofs *)

(** What a "Load Session" that the validator lets through leaves in the
    session state. *)
Lemma load_session_accepts (coding_df : list item) (st : session)
    (coder_name variable : value) (resume_df : table) (st' : session) (msg : message) :
  load_session coding_df st coder_name variable resume_df = (st', (true, msg)) →
  ∃ ids,
    validate_resume_csv resume_df coding_df = (true, msg, ids) ∧
    results st' = to_dict_records (isin_rows "coding_id" ids resume_df) ∧
    coded_ids st' = list_to_set (map coding_id_of (results st')) ∧
    current_index st' = jump_target coding_df (coded_ids st') ∧
    widget_version st' = widget_version st + 1.
Proof.
  unfold load_session.
  destruct (validate_resume_csv resume_df coding_df) as [[is_valid m] ids].
  destruct is_valid; simpl; [|intros [= _ ?]; discriminate].
  destruct (to_dict_records (isin_rows "coding_id" ids resume_df)) as [|first rest] eqn:Hres;
    intros [= <- <-]; exists ids; simpl; auto.
Qed.

(** A "Load Session" that the validator refuses leaves the session state as
    it was. *)
Lemma load_session_refuses (coding_df : list item) (st : session)
    (coder_name variable : value) (resume_df : table) (st' : session) (msg : message) :
  load_session coding_df st coder_name variable resume_df = (st', (false, msg)) →
  st' = st.
Proof.
  unfold load_session.
  destruct (validate_resume_csv resume_df coding_df) as [[is_valid m] ids].
  destruct is_valid; simpl; [|by intros [= <- _]].
  destruct (to_dict_records _); intros [= _ ?]; discriminate.
Qed.

(** Where the handler's loop over the store stops. *)
Lemma jump_target_spec (coding_df : list item) (coded : gset value) :
  (∃ (i : nat) (it : item),
      jump_target coding_df coded = Z.of_nat i ∧
      coding_df !! i = Some it ∧ (coding_id it ∉ coded) ∧
      (∀ (j : nat) (it' : item),
         (j < i)%nat → coding_df !! j = Some it' → coding_id it' ∈ coded))
  ∨ ((∀ it, it ∈ coding_df → coding_id it ∈ coded) ∧
     jump_target coding_df coded = Z.of_nat (length coding_df) - 1).
Proof.
  unfold jump_target.
  destruct (list_find (λ it, coding_id it ∉ coded) coding_df) as [[i it]|] eqn:Hf.
  - left. apply list_find_Some in Hf as (Hi & Hn & Hbefore).
    exists i, it. repeat split; try done.
    intros j it' Hj Hit'. specialize (Hbefore j it' Hit' Hj).
    by apply dec_stable in Hbefore.
  - right. apply list_find_None in Hf. split; [|done].
    intros it Hit. rewrite list.Forall_forall in Hf.
    specialize (Hf it Hit). by apply dec_stable in Hf.
Qed.

Lemma iloc_last {A} (l : list A) :
  l ≠ [] → ∃ x, iloc l (Z.of_nat (length l) - 1) = Some x.
Proof.
  intros Hl. unfold iloc.
  destruct l as [|a l]; [done|]. simpl length.
  rewrite (proj2 (Z.leb_le _ _)) by lia.
  apply lookup_lt_is_Some_2. simpl. lia.
Qed.

(** The validator lets nothing through for an empty store. *)
Lemma validate_accepts_nonempty_store (resume_df : table) (coding_df : list item)
    (msg : message) (ids : gset value) :
  validate_resume_csv resume_df coding_df = (true, msg, ids) → coding_df ≠ [].
Proof.
  rewrite validate_resume_csv_cases. cbv zeta.
  intros Hv ->. simpl in Hv.
  destruct (decide (required_cols ⊆ _)); [|discriminate].
  destruct (decide (_ ∩ ∅ = ∅)) as [|Hne]; [discriminate|].
  apply Hne. set_solver.
Qed.

(** C3: after every successful resume the cursor is on the first item of the
    store, in store order, whose coding_id is not the coding_id of an
    accepted record, or on the last item of the store when every item's
    coding_id is one of them; the file with Q1 and Q5 against the store
    Q1, Q2, Q3 is accepted with a warning, leaves the one record of Q1 and
    puts the cursor on Q2. *)
Theorem C3_resume_cursor_on_first_uncoded :
  (∀ (coding_df : list item) (st : session) (coder_name variable : value)
     (resume_df : table) (st' : session) (msg : message),
     load_session coding_df st coder_name variable resume_df = (st', (true, msg)) →
     let accepted : list value := map coding_id_of (results st') in
     (∃ (i : nat) (it : item),
         current_index st' = Z.of_nat i ∧
         coding_df !! i = Some it ∧ (coding_id it ∉ accepted) ∧
         (∀ (j : nat) (it' : item),
            (j < i)%nat → coding_df !! j = Some it' → coding_id it' ∈ accepted))
     ∨ ((∀ it, it ∈ coding_df → coding_id it ∈ accepted) ∧
        (∃ it, iloc coding_df (Z.of_nat (length coding_df) - 1) = Some it) ∧
        current_index st' = Z.of_nat (length coding_df) - 1))
  ∧ (∃ st',
       load_session Scenario.store fresh_session (VStr "Ann") (VStr "Inflation")
                    Scenario.q1_q5 = (st', (true, WarningNotFound 1)) ∧
       results st' = [[("coding_id", VStr "Q1"); ("coder_name", VStr "Ann");
                       ("score", VInt 1)]] ∧
       current_index st' = 1 ∧
       coding_id <$> iloc Scenario.store (current_index st') = Some (VStr "Q2")).
Proof.
  split.
  - intros coding_df st coder_name variable resume_df st' msg Hload accepted.
    apply load_session_accepts in Hload as (ids & Hv & _ & Hcoded & Hidx & _).
    apply validate_accepts_nonempty_store in Hv.
    rewrite Hidx.
    assert (∀ x, x ∈ coded_ids st' ↔ x ∈ accepted) as Hmem.
    { intros x. rewrite Hcoded. apply elem_of_list_to_set. }
    destruct (jump_target_spec coding_df (coded_ids st'))
      as [(i & it & Hi & Hit & Hn & Hbefore)|[Hall Hi]].
    + left. exists i, it. rewrite <- Hmem. repeat split; try done.
      intros j it' Hj Hit'. apply Hmem. eauto.
    + right. repeat split; [|by apply iloc_last|done].
      intros it Hit. apply Hmem. auto.
  - eexists. split; [vm_compute; reflexivity|]. simpl. repeat split.
Qed.

(** Scenario C as an instance of the general statement. *)
Lemma C3_resume_cursor_on_first_uncoded_witness :
  ∃ st' : session,
    load_session Scenario.store fresh_session (VStr "Ann") (VStr "Inflation")
                 Scenario.q1_q5 = (st', (true, WarningNotFound 1)) ∧
    ((∃ (i : nat) (it : item),
         current_index st' = Z.of_nat i ∧
         Scenario.store !! i = Some it ∧
         (coding_id it ∉ map coding_id_of (results st')) ∧
         (∀ (j : nat) (it' : item),
            (j < i)%nat → Scenario.store !! j = Some it' →
            coding_id it' ∈ map coding_id_of (results st')))
     ∨ ((∀ it, it ∈ Scenario.store → coding_id it ∈ map coding_id_of (results st')) ∧
        (∃ it, iloc Scenario.store (Z.of_nat (length Scenario.store) - 1) = Some it) ∧
        current_index st' = Z.of_nat (length Scenario.store) - 1)).
Proof.
  eexists. split; [vm_compute; reflexivity|].
  eapply (proj1 C3_resume_cursor_on_first_uncoded
            Scenario.store fresh_session (VStr "Ann") (VStr "Inflation") Scenario.q1_q5).
  vm_compute. reflexivity.
Defined.

(** ** "Update or append": proofs *)

Lemma py_eq_true (v w : value) : py_eq v w = true ↔ v = w ∧ v ≠ VNaN.
Proof.
  destruct v, w; simpl; rewrite ?bool_decide_eq_true;
    split; try discriminate; try (intros [? ?]; congruence);
    intros ?; split; congruence.
Qed.

Lemma py_eq_refl (v : value) : v ≠ VNaN → py_eq v v = true.
Proof. intros Hv. by apply py_eq_true. Qed.

Lemma py_eq_NaN (v : value) : py_eq v VNaN = false.
Proof. by destruct v. Qed.

(** A blank identifier, read as NaN, equals no identifier: the loop finds
    no record for it. *)
Lemma existing_idx_NaN (rs : list record) : existing_idx VNaN rs = None.
Proof.
  induction rs as [|r rs IH]; simpl; [done|].
  by rewrite py_eq_NaN, IH.
Qed.

Lemma existing_idx_not_NaN (cid : value) (rs : list record) (i : nat) :
  existing_idx cid rs = Some i → cid ≠ VNaN.
Proof. intros He ->. by rewrite existing_idx_NaN in He. Qed.

Lemma existing_idx_Some (cid : value) (rs : list record) (i : nat) :
  existing_idx cid rs = Some i →
  ∃ r, rs !! i = Some r ∧ coding_id_of r = cid ∧
       ∀ (j : nat) (r' : record), (j < i)%nat → rs !! j = Some r' → coding_id_of r' ≠ cid.
Proof.
  revert i. induction rs as [|r rs IH]; intros i; simpl; [discriminate|].
  destruct (py_eq (coding_id_of r) cid) eqn:Hr.
  - apply py_eq_true in Hr as [Hr _].
    intros [= <-]. exists r. repeat split; [done|]. intros j r' Hj. lia.
  - destruct (existing_idx cid rs) as [i'|] eqn:He; simpl; [|discriminate].
    intros [= <-]. destruct (IH i' eq_refl) as (r0 & Hr0 & Hid & Hbefore).
    exists r0. repeat split; try done.
    intros [|j] r' Hj; simpl.
    + intros [= <-] Heq. rewrite Heq in Hr.
      rewrite py_eq_refl in Hr; [discriminate|].
      by eapply existing_idx_not_NaN.
    + apply Hbefore. lia.
Qed.

Lemma existing_idx_not_elem_of (cid : value) (rs : list record) :
  cid ∉ map coding_id_of rs → existing_idx cid rs = None.
Proof.
  intros Hn. destruct (existing_idx cid rs) as [i|] eqn:He; [|done].
  destruct (existing_idx_Some _ _ _ He) as (r & Hr & Hid & _).
  exfalso. apply Hn. rewrite <- Hid.
  apply list_elem_of_In, in_map, list_elem_of_In. by eapply list_elem_of_lookup_2.
Qed.

Lemma existing_idx_None (cid : value) (rs : list record) :
  cid ≠ VNaN →
  existing_idx cid rs = None ↔ cid ∉ map coding_id_of rs.
Proof.
  intros Hcid. split; [|apply existing_idx_not_elem_of].
  induction rs as [|r rs IH]; simpl; [set_solver|].
  destruct (py_eq (coding_id_of r) cid) eqn:Hr; [discriminate|].
  destruct (existing_idx cid rs); simpl; [discriminate|].
  intros _. apply not_elem_of_cons. split; [|by apply IH].
  intros ->. by rewrite py_eq_refl in Hr.
Qed.

Lemma map_insert_same {A B} (g : A → B) (l : list A) (i : nat) (x y : A) :
  l !! i = Some x → g y = g x → map g (<[i := y]> l) = map g l.
Proof.
  revert i. induction l as [|a l IH]; intros [|i]; simpl; try done.
  - intros [= ->] ->. reflexivity.
  - intros Hi Hg. f_equal. by apply IH.
Qed.

(** A commit keeps the identifiers of the record list in place and adds the
    committed one at the end when the loop has found no record. *)
Lemma upsert_ids_idx (rs : list record) (cid : value) (result : record) :
  coding_id_of result = cid →
  map coding_id_of (upsert rs cid result)
  = match existing_idx cid rs with
    | Some _ => map coding_id_of rs
    | None => (map coding_id_of rs ++ [cid])%list
    end.
Proof.
  intros Hid. unfold upsert.
  destruct (existing_idx cid rs) as [i|] eqn:He.
  - destruct (existing_idx_Some _ _ _ He) as (r & Hr & Hrid & _).
    apply (map_insert_same coding_id_of rs i r result Hr). congruence.
  - rewrite map_app. simpl. by rewrite Hid.
Qed.

Lemma upsert_ids (rs : list record) (cid : value) (result : record) :
  coding_id_of result = cid → cid ≠ VNaN →
  map coding_id_of (upsert rs cid result)
  = if decide (cid ∈ map coding_id_of rs) then map coding_id_of rs
    else (map coding_id_of rs ++ [cid])%list.
Proof.
  intros Hid Hcid. rewrite upsert_ids_idx by done.
  destruct (existing_idx cid rs) as [i|] eqn:He.
  - destruct (existing_idx_Some _ _ _ He) as (r & Hr & Hrid & _).
    rewrite decide_True; [done|].
    rewrite <- Hrid. apply list_elem_of_In, in_map, list_elem_of_In.
    by eapply list_elem_of_lookup_2.
  - apply existing_idx_None in He; [|done]. by rewrite decide_False.
Qed.

(** The identifiers of the records after a commit, as a set. *)
Lemma upsert_ids_set (rs : list record) (cid : value) (result : record) :
  coding_id_of result = cid →
  (list_to_set (map coding_id_of (upsert rs cid result)) : gset value)
  = list_to_set (map coding_id_of rs) ∪ {[ cid ]}.
Proof.
  intros Hid. rewrite upsert_ids_idx by done.
  destruct (existing_idx cid rs) as [i|] eqn:He.
  - destruct (existing_idx_Some _ _ _ He) as (r & Hr & Hrid & _).
    assert (cid ∈ (list_to_set (map coding_id_of rs) : gset value)) as Hin.
    { apply elem_of_list_to_set. rewrite <- Hrid.
      apply list_elem_of_In, in_map, list_elem_of_In.
      by eapply list_elem_of_lookup_2. }
    apply set_eq. intros x. rewrite elem_of_union, elem_of_singleton.
    split; [by left|]. intros [?| ->]; done.
  - rewrite list_to_set_app_L. simpl. by rewrite union_empty_r_L.
Qed.

Lemma upsert_NoDup (rs : list record) (cid : value) (result : record) :
  coding_id_of result = cid → cid ≠ VNaN →
  NoDup (map coding_id_of rs) → NoDup (map coding_id_of (upsert rs cid result)).
Proof.
  intros Hid Hcid Hnd. rewrite upsert_ids by done.
  case_decide as Hin; [done|].
  apply list.NoDup_app. repeat split; [done| |apply NoDup_singleton].
  intros x Hx. set_solver.
Qed.

(** A second commit for the same identifier lands where the first one did. *)
Lemma upsert_upsert (rs : list record) (cid : value) (r1 r2 : record) :
  coding_id_of r1 = cid → cid ≠ VNaN →
  upsert (upsert rs cid r1) cid r2 = upsert rs cid r2.
Proof.
  intros Hid Hcid. unfold upsert at 2 3.
  destruct (existing_idx cid rs) as [i|] eqn:He.
  - destruct (existing_idx_Some _ _ _ He) as (r & Hr & Hrid & Hbefore).
    assert (existing_idx cid (<[i := r1]> rs) = Some i) as He'.
    { clear Hbefore. revert i He Hr.
      induction rs as [|a rs IH]; intros i; simpl; [discriminate|].
      destruct (py_eq (coding_id_of a) cid) eqn:Ha.
      - intros [= <-] _. simpl. by rewrite Hid, py_eq_refl.
      - destruct (existing_idx cid rs) as [i'|]; simpl; [|discriminate].
        intros [= <-] Hr. simpl. rewrite Ha.
        by rewrite (IH i' eq_refl Hr). }
    unfold upsert. rewrite He'. apply list_insert_insert_eq.
  - assert (existing_idx cid (rs ++ [r1]) = Some (length rs)) as He'.
    { clear -He Hid Hcid. induction rs as [|a rs IH]; simpl.
      - by rewrite Hid, py_eq_refl.
      - simpl in He. destruct (py_eq (coding_id_of a) cid); [discriminate|].
        destruct (existing_idx cid rs); [discriminate|].
        by rewrite IH. }
    unfold upsert. rewrite He'.
    rewrite insert_app_r_alt by lia. rewrite Nat.sub_diag. reflexivity.
Qed.

(** ** The handlers: what a click changes *)

Section Steps.

Variable coding_df : list item.
Variable data_cat_names : list string.

(** What "Save & Continue" leaves in the session state. *)
Lemma save_and_continue_Some (st : session) (coder_name variable : value)
    (f : form) (now : string) (st' : session) :
  save_and_continue coding_df data_cat_names st coder_name variable f now = Some st' →
  ∃ row,
    current_item coding_df st = Some row ∧
    let name' := default coder_name (locked_coder_name st) in
    let var' := default variable (locked_variable st) in
    let result := make_result data_cat_names (coding_id row) name' var' f now in
    results st' = upsert (results st) (coding_id row) result ∧
    coded_ids st' = coded_ids st ∪ {[ coding_id row ]} ∧
    locked_coder_name st' = Some name' ∧
    locked_variable st' = Some var' ∧
    widget_version st' = widget_version st ∧
    current_index st' =
      (if current_index st <? total_arguments coding_df - 1
       then current_index st + 1 else current_index st).
Proof.
  unfold save_and_continue.
  destruct (current_item coding_df st) as [row|]; [|discriminate].
  intros [= <-]. exists row. simpl.
  destruct (locked_coder_name st), (locked_variable st); simpl; auto 10.
Qed.

(** The button is on the page exactly when an item is shown. *)
Lemma save_and_continue_is_Some (st : session) (coder_name variable : value)
    (f : form) (now : string) :
  is_Some (save_and_continue coding_df data_cat_names st coder_name variable f now)
  ↔ is_Some (current_item coding_df st).
Proof.
  unfold save_and_continue.
  destruct (current_item coding_df st); split; intros [? ?]; eauto; discriminate.
Qed.

Lemma make_result_coding_id (cid coder variable : value) (f : form) (now : string) :
  coding_id_of (make_result data_cat_names cid coder variable f now) = cid.
Proof. reflexivity. Qed.

(** The item shown lies within the store. *)
Lemma current_item_index (st : session) (row : item) :
  current_item coding_df st = Some row →
  current_index st < total_arguments coding_df ∧
  iloc coding_df (current_index st) = Some row.
Proof.
  unfold current_item.
  destruct (current_index st <? total_arguments coding_df) eqn:Hlt; [|discriminate].
  apply Z.ltb_lt in Hlt.
  destruct (iloc coding_df (current_index st)) as [row'|]; [|discriminate].
  destruct (score_widget_renders st (coding_id row')); [|discriminate].
  by intros [= <-].
Qed.

Lemma iloc_elem_of {A} (l : list A) (i : Z) (x : A) : iloc l i = Some x → x ∈ l.
Proof.
  unfold iloc. destruct (0 <=? i); [apply list_elem_of_lookup_2|].
  destruct (0 <=? _); [apply list_elem_of_lookup_2 | discriminate].
Qed.

Lemma current_item_in_store (st : session) (row : item) :
  current_item coding_df st = Some row → row ∈ coding_df.
Proof.
  intros Hrow. apply current_item_index in Hrow as [_ Hrow].
  by eapply iloc_elem_of.
Qed.

(** The item shown has an identifier when every item of the store has. *)
Lemma current_item_id_present (st : session) (row : item) :
  ids_present coding_df → current_item coding_df st = Some row →
  coding_id row ≠ VNaN.
Proof.
  intros Hids Hrow. apply current_item_in_store in Hrow.
  unfold ids_present in Hids. rewrite list.Forall_forall in Hids. by apply Hids.
Qed.

Lemma previous_same_records (st : session) : same_records st (previous coding_df st).
Proof.
  unfold previous, same_records.
  destruct (current_item coding_df st); [|done].
  destruct (current_index st =? 0); done.
Qed.

Lemma skip_same_records (st : session) : same_records st (skip coding_df st).
Proof.
  unfold skip, same_records.
  destruct (current_item coding_df st); [|done].
  destruct (current_index st =? total_arguments coding_df - 1); done.
Qed.

Lemma go_same_records (st : session) (jump_to : Z) :
  same_records st (go coding_df st jump_to).
Proof.
  unfold go, same_records.
  destruct (current_item coding_df st); [|done].
  destruct ((1 <=? jump_to) && (jump_to <=? total_arguments coding_df)); done.
Qed.

Lemma return_to_start_same_records (st : session) :
  same_records st (return_to_start coding_df st).
Proof.
  unfold return_to_start, same_records.
  destruct (current_index st <? total_arguments coding_df); done.
Qed.

(** The cases of one click. *)
Lemma step_cases (st : session) (ui : sidebar_input) (a : action) :
  same_records st (step coding_df data_cat_names st ui a)
  ∨ (∃ coder_name variable f now,
        a = SaveAndContinue f now ∧ sidebar st ui = Some (coder_name, variable) ∧
        save_and_continue coding_df data_cat_names st coder_name variable f now
          = Some (step coding_df data_cat_names st ui a))
  ∨ (∃ coder_name variable resume_df msg,
        a = LoadSession resume_df ∧ sidebar st ui = Some (coder_name, variable) ∧
        load_session coding_df st coder_name variable resume_df
          = (step coding_df data_cat_names st ui a, (true, msg))).
Proof.
  unfold step.
  destruct (sidebar st ui) as [[coder_name variable]|]; [|by left].
  destruct (progress_section_runs coding_df st); [|by left]. simpl.
  destruct (download_section_runs st coder_name variable); [|by left]. simpl.
  destruct a as [f now|resume_df| | |jump_to|].
  - destruct (save_and_continue _ _ st coder_name variable f now) as [st'|] eqn:Hs.
    + right. left. by exists coder_name, variable, f, now.
    + by left.
  - destruct (load_session coding_df st coder_name variable resume_df)
      as [st' [[] msg]] eqn:Hl.
    + right. right. by exists coder_name, variable, resume_df, msg.
    + left. apply load_session_refuses in Hl. by subst.
  - left. apply previous_same_records.
  - left. apply skip_same_records.
  - left. apply go_same_records.
  - left. apply return_to_start_same_records.
Qed.

(** Induction over the clicks of a session. *)
Lemma run_preserves (P : session → Prop) (Q : sidebar_input * action → Prop) :
  (∀ st ui a, Q (ui, a) → P st → P (step coding_df data_cat_names st ui a)) →
  ∀ clicks st, Forall Q clicks → P st → P (run coding_df data_cat_names st clicks).
Proof.
  intros Hstep clicks. induction clicks as [|[ui a] clicks IH]; intros st Hq Hp; [done|].
  inversion Hq; subst. simpl. apply IH; [done|]. by apply Hstep.
Qed.

End Steps.

(** ** The coded identifiers *)

Lemma save_keeps_coded_ids_agree (coding_df : list item) (data_cat_names : list string)
    (st : session) (coder_name variable : value) (f : form) (now : string)
    (st' : session) :
  save_and_continue coding_df data_cat_names st coder_name variable f now = Some st' →
  coded_ids_agree st → coded_ids_agree st'.
Proof.
  intros Hs Hinv. apply save_and_continue_Some in Hs as (row & _ & Hres & Hcoded & _).
  unfold coded_ids_agree, record_ids in *. rewrite Hcoded, Hres, Hinv.
  by rewrite upsert_ids_set by apply make_result_coding_id.
Qed.

Lemma load_gives_coded_ids_agree (coding_df : list item) (st : session)
    (coder_name variable : value) (resume_df : table) (st' : session) (msg : message) :
  load_session coding_df st coder_name variable resume_df = (st', (true, msg)) →
  coded_ids_agree st'.
Proof.
  intros Hl. apply load_session_accepts in Hl as (ids & _ & _ & Hcoded & _).
  exact Hcoded.
Qed.

Lemma step_keeps_coded_ids_agree (coding_df : list item) (data_cat_names : list string)
    (st : session) (ui : sidebar_input) (a : action) :
  coded_ids_agree st → coded_ids_agree (step coding_df data_cat_names st ui a).
Proof.
  intros Hinv.
  destruct (step_cases coding_df data_cat_names st ui a)
    as [(Hr & Hc & _)|[(cn & var & f & now & _ & _ & Hs)|(cn & var & df & msg & _ & _ & Hl)]].
  - unfold coded_ids_agree, record_ids in *. by rewrite Hr, Hc.
  - by eapply save_keeps_coded_ids_agree.
  - by eapply load_gives_coded_ids_agree.
Qed.

Lemma step_keeps_NoDup (coding_df : list item) (data_cat_names : list string)
    (st : session) (ui : sidebar_input) (a : action) :
  ids_present coding_df →
  not_a_load (ui, a) →
  NoDup (record_ids st) → NoDup (record_ids (step coding_df data_cat_names st ui a)).
Proof.
  intros Hids Hnl Hinv.
  destruct (step_cases coding_df data_cat_names st ui a)
    as [(Hr & _)|[(cn & var & f & now & _ & _ & Hs)|(cn & var & df & msg & -> & _)]].
  - unfold record_ids. by rewrite Hr.
  - apply save_and_continue_Some in Hs as (row & Hrow & Hres & _).
    unfold record_ids. rewrite Hres.
    apply upsert_NoDup; [apply make_result_coding_id | | done].
    by eapply current_item_id_present.
  - destruct Hnl.
Qed.

(** In a session without "Load Session", on a store whose items all have an
    identifier, no identifier has two records. *)
Lemma run_NoDup (coding_df : list item) (data_cat_names : list string)
    (clicks : list (sidebar_input * action)) :
  ids_present coding_df →
  Forall not_a_load clicks →
  NoDup (record_ids (run coding_df data_cat_names fresh_session clicks)).
Proof.
  intros Hids Hc.
  apply (run_preserves coding_df data_cat_names (λ st, NoDup (record_ids st)) not_a_load);
    [|done|apply NoDup_nil_2].
  intros st ui a. by apply step_keeps_NoDup.
Qed.

(** C10 (as amended): the set of coded identifiers is exactly the set of the
    coding_id values of the records after initialization, after every
    commit, after every successful resume, and so in every state a session
    reaches.  The coded count is the number of stored records whenever no
    coding_id has two records, as in every session without a resume on a
    store whose items all have a coding_id; a resume stores the rows of a
    file that repeats a coding_id as they are, and the count is then
    smaller.  (A blank coding_id, read as NaN, equals no coding_id, so that
    every save of such an item appends a record: the count of such a store
    is left open.) *)
Theorem C10_coded_ids_are_record_ids (coding_df : list item) (data_cat_names : list string) :
  coded_ids_agree (initialize_session_state None) ∧
  (∀ st coder_name variable f now st',
     save_and_continue coding_df data_cat_names st coder_name variable f now = Some st' →
     coded_ids_agree st → coded_ids_agree st') ∧
  (∀ st coder_name variable resume_df st' msg,
     load_session coding_df st coder_name variable resume_df = (st', (true, msg)) →
     coded_ids_agree st') ∧
  (∀ clicks,
     let st := run coding_df data_cat_names (initialize_session_state None) clicks in
     coded_ids_agree st ∧
     (NoDup (record_ids st) → size (coded_ids st) = length (results st)) ∧
     (ids_present coding_df → Forall not_a_load clicks →
      size (coded_ids st) = length (results st))).
Proof.
  split; [done|]. split; [|split].
  - intros *. apply save_keeps_coded_ids_agree.
  - intros *. apply load_gives_coded_ids_agree.
  - intros clicks st.
    assert (coded_ids_agree st) as Hagree.
    { apply (run_preserves coding_df data_cat_names coded_ids_agree (λ _, True));
        [|by apply Forall_true|done].
      intros st0 ui a _. apply step_keeps_coded_ids_agree. }
    assert (NoDup (record_ids st) → size (coded_ids st) = length (results st)) as Hcount.
    { intros Hnd. rewrite Hagree, size_list_to_set by done.
      unfold record_ids. apply length_map. }
    split; [done|]. split; [done|].
    intros Hids Hc. apply Hcount. by apply run_NoDup.
Qed.

(** Three saves on the three items of the store: three records, three coded
    identifiers. *)
Lemma C10_coded_ids_are_record_ids_witness :
  let st := run Scenario.store Scenario.data_cats fresh_session Scenario.three_saves in
  ids_present Scenario.store ∧
  Forall not_a_load Scenario.three_saves ∧
  size (coded_ids st) = 3%nat ∧ length (results st) = 3%nat.
Proof.
  intros st.
  assert (ids_present Scenario.store) as Hids
    by (repeat constructor; discriminate).
  assert (Forall not_a_load Scenario.three_saves) as Hc
    by (repeat constructor).
  pose proof (proj2 (proj2 (proj2
    (C10_coded_ids_are_record_ids Scenario.store Scenario.data_cats)))
    Scenario.three_saves) as H.
  cbv zeta in H. destruct H as (_ & _ & H). specialize (H Hids Hc).
  split; [exact Hids|]. split; [exact Hc|]. split; [|reflexivity].
  change (initialize_session_state None) with fresh_session in H.
  fold st in H. rewrite H. reflexivity.
Defined.

(** C10 as stated fails on the count: after the resume of a file with the
    coding_id Q1 on two rows there are two records and one coded identifier. *)
Lemma C10_count_differs_after_duplicate_rows :
  ¬ (∀ clicks : list (sidebar_input * action),
       let st := run Scenario.store Scenario.data_cats fresh_session clicks in
       size (coded_ids st) = length (results st)).
Proof.
  intros H.
  specialize (H [(Scenario.ann, LoadSession Scenario.q1_q1)]).
  vm_compute in H. discriminate.
Qed.

(** ** Commit *)

Lemma same_but_timestamp_refl (r : record) : same_but_timestamp r r.
Proof. by intros k _. Qed.

Lemma make_result_same_but_timestamp (data_cat_names : list string)
    (cid coder variable : value) (f : form) (now1 now2 : string) :
  same_but_timestamp (make_result data_cat_names cid coder variable f now1)
                     (make_result data_cat_names cid coder variable f now2).
Proof.
  intros k Hk. unfold make_result. cbn [dict_get].
  repeat (destruct (String.eqb k _) eqn:?; [reflexivity|]).
  destruct (String.eqb_spec k "coded_at"); [done | reflexivity].
Qed.

Lemma upsert_same_but_timestamp (rs : list record) (cid : value) (r1 r2 : record) :
  same_but_timestamp r1 r2 →
  Forall2 same_but_timestamp (upsert rs cid r1) (upsert rs cid r2).
Proof.
  intros Hr.
  assert (Forall2 same_but_timestamp rs rs) as Hrefl.
  { apply Forall_Forall2_diag, list.Forall_forall.
    intros r _. apply same_but_timestamp_refl. }
  unfold upsert. destruct (existing_idx cid rs) as [i|].
  - by apply Forall2_insert.
  - apply Forall2_app; [done|]. by constructor.
Qed.

(** C4 (as amended): a commit is an upsert keyed by coding_id.  The record
    written is the one the form gives, field by field ([make_result]).  When
    the save loop finds a record with the coding_id of the item, which is
    the first such record, that entry is replaced as a whole by the new
    record: the entry at that index is the new record, nothing of the old
    one is kept, and nothing else changes; otherwise the new record is
    appended.  The loop finds a record exactly when there is one and the
    item has a coding_id: a blank coding_id, read as NaN, equals no
    coding_id, and a commit for such an item always appends.  A record list
    with one record per coding_id keeps that property under a commit for an
    item that has a coding_id, and every session without a resume on a
    store whose items all have a coding_id has it (a resume stores the rows
    of a file that repeats a coding_id as they are); committing the same
    form for the same item twice leaves the record list as it was after the
    first commit, apart from the time stamp. *)
Theorem C4_commit_is_upsert (coding_df : list item) (data_cat_names : list string) :
  (∀ st coder_name variable f now st',
     save_and_continue coding_df data_cat_names st coder_name variable f now = Some st' →
     ∃ row,
       current_item coding_df st = Some row ∧
       let result :=
         make_result data_cat_names (coding_id row)
                     (default coder_name (locked_coder_name st))
                     (default variable (locked_variable st)) f now in
       (∀ i, existing_idx (coding_id row) (results st) = Some i →
             (∃ old, results st !! i = Some old ∧
                     coding_id_of old = coding_id row ∧
                     ∀ (j : nat) (r' : record),
                       (j < i)%nat → results st !! j = Some r' →
                       coding_id_of r' ≠ coding_id row) ∧
             results st' = <[i := result]> (results st) ∧
             results st' !! i = Some result ∧
             length (results st') = length (results st)) ∧
       (coding_id row ≠ VNaN → coding_id row ∈ record_ids st →
          is_Some (existing_idx (coding_id row) (results st))) ∧
       ((coding_id row ∉ record_ids st) → results st' = (results st ++ [result])%list) ∧
       (coding_id row = VNaN → results st' = (results st ++ [result])%list) ∧
       (coding_id row ≠ VNaN → NoDup (record_ids st) →
          NoDup (record_ids st') ∧
          filter (λ r, coding_id_of r = coding_id row) (results st') = [result])) ∧
  (∀ clicks,
     ids_present coding_df →
     Forall not_a_load clicks →
     NoDup (record_ids (run coding_df data_cat_names fresh_session clicks))) ∧
  (∀ st st1 st1' st2 coder_name variable coder_name' variable' f now1 now2,
     ids_present coding_df →
     save_and_continue coding_df data_cat_names st coder_name variable f now1 = Some st1 →
     same_records st1 st1' → current_index st1' = current_index st →
     save_and_continue coding_df data_cat_names st1' coder_name' variable' f now2 = Some st2 →
     Forall2 same_but_timestamp (results st1) (results st2)).
Proof.
  split; [|split].
  - intros st coder_name variable f now st' Hs.
    apply save_and_continue_Some in Hs as (row & Hrow & Hres & _).
    exists row. split; [done|]. intros result. fold result in Hres.
    split; [|split; [|split; [|split]]].
    + intros i Hi. rewrite Hres. unfold upsert. rewrite Hi.
      destruct (existing_idx_Some _ _ _ Hi) as (r & Hr & Hid & Hbefore).
      split; [by exists r|]. split; [done|]. split; [|apply length_insert].
      apply list_lookup_insert_eq. by eapply lookup_lt_Some.
    + intros Hcid Hin.
      destruct (existing_idx (coding_id row) (results st)) eqn:He; [eauto|].
      apply existing_idx_None in He; done.
    + intros Hnot. apply existing_idx_not_elem_of in Hnot.
      rewrite Hres. unfold upsert. by rewrite Hnot.
    + intros Hnan. rewrite Hres. unfold upsert.
      by rewrite Hnan, existing_idx_NaN.
    + intros Hcid Hnd.
      assert (NoDup (record_ids st')) as Hnd'.
      { unfold record_ids. rewrite Hres. by apply upsert_NoDup. }
      split; [done|].
      assert (result ∈ results st') as Hin.
      { rewrite Hres. unfold upsert.
        destruct (existing_idx (coding_id row) (results st)) as [i|] eqn:He.
        - destruct (existing_idx_Some _ _ _ He) as (r & Hr & _).
          eapply list_elem_of_lookup_2, list_lookup_insert_eq, lookup_lt_Some, Hr.
        - set_solver. }
      revert Hnd' Hin. unfold record_ids. generalize (results st'). clear.
      intros l Hnd Hin. induction l as [|r l IH]; [set_solver|].
      simpl in Hnd. apply list.NoDup_cons in Hnd as [Hr Hl].
      rewrite filter_cons. apply elem_of_cons in Hin as [<-|Hin].
      * rewrite decide_True by done. f_equal.
        destruct (filter _ l) as [|r' l'] eqn:Hf; [done|].
        assert (r' ∈ filter (λ r, coding_id_of r = coding_id row) l) as Hr'
          by (rewrite Hf; set_solver).
        apply list_elem_of_filter in Hr' as [Hid Hr'].
        exfalso. apply Hr. change (coding_id_of result) with (coding_id row).
        rewrite <- Hid. apply list_elem_of_In, in_map, list_elem_of_In, Hr'.
      * rewrite decide_False; [by apply IH|].
        intros Hid. apply Hr. rewrite Hid.
        change (coding_id row) with (coding_id_of result).
        apply list_elem_of_In, in_map, list_elem_of_In, Hin.
  - intros clicks. apply run_NoDup.
  - intros st st1 st1' st2 cn var cn' var' f now1 now2 Hids Hs1 (Hr & _ & Hn & Hv)
      Hidx Hs2.
    apply save_and_continue_Some in Hs1
      as (row & Hrow & Hres1 & _ & Hname1 & Hvar1 & _).
    apply save_and_continue_Some in Hs2 as (row' & Hrow' & Hres2 & _).
    pose proof (current_item_id_present _ _ _ Hids Hrow) as Hcid.
    apply current_item_index in Hrow as [_ Hrow].
    apply current_item_index in Hrow' as [_ Hrow'].
    rewrite Hidx, Hrow in Hrow'. injection Hrow' as <-.
    rewrite Hres2, Hr, Hn, Hv, Hname1, Hvar1, Hres1. simpl.
    rewrite upsert_upsert by done.
    apply upsert_same_but_timestamp, make_result_same_but_timestamp.
Qed.

(** The second part at the session of three saves. *)
Lemma C4_commit_is_upsert_witness :
  ids_present Scenario.store ∧
  Forall not_a_load Scenario.three_saves ∧
  NoDup (record_ids (run Scenario.store Scenario.data_cats fresh_session
                         Scenario.three_saves)).
Proof.
  assert (ids_present Scenario.store) as Hids
    by (repeat constructor; discriminate).
  assert (Forall not_a_load Scenario.three_saves) as Hc by (repeat constructor).
  split; [exact Hids|]. split; [exact Hc|].
  exact (proj1 (proj2 (C4_commit_is_upsert Scenario.store Scenario.data_cats))
               Scenario.three_saves Hids Hc).
Defined.

(** C4 as stated fails: after the resume of a file with the coding_id Q1 on
    two rows, a commit for Q1 replaces the first of the two records and the
    record list still holds two records of Q1. *)
Lemma C4_two_records_of_one_coding_id :
  ¬ (∀ clicks : list (sidebar_input * action),
       NoDup (record_ids (run Scenario.store Scenario.data_cats fresh_session clicks))).
Proof.
  intros H. specialize (H Scenario.resume_then_save_q1).
  vm_compute in H. apply list.NoDup_cons in H as [Hn _].
  apply Hn. set_solver.
Qed.

(** A commit puts its record in the list. *)
Lemma upsert_elem_of (rs : list record) (cid : value) (result : record) :
  result ∈ upsert rs cid result.
Proof.
  unfold upsert. destruct (existing_idx cid rs) as [i|] eqn:He.
  - destruct (existing_idx_Some _ _ _ He) as (r & Hr & _).
    eapply list_elem_of_lookup_2, list_lookup_insert_eq, lookup_lt_Some, Hr.
  - set_solver.
Qed.

(** What is in the list after a commit was there before or is the new
    record. *)
Lemma elem_of_upsert (rs : list record) (cid : value) (result r : record) :
  r ∈ upsert rs cid result → r = result ∨ r ∈ rs.
Proof.
  unfold upsert. destruct (existing_idx cid rs) as [i|].
  - intros Hr. apply list_elem_of_lookup in Hr as [j Hj].
    destruct (decide (i = j)) as [<-|Hne].
    + left. apply list_lookup_insert_Some in Hj. naive_solver.
    + right. rewrite list_lookup_insert_ne in Hj by done.
      by eapply list_elem_of_lookup_2.
  - set_solver.
Qed.




(** C8 (as amended): a commit with an "Other" choice made and its text left
    empty is not rejected.  Whenever the button is on the page the record is
    written, with the empty text in the field of that choice, the item
    becomes coded, and the cursor moves on as after any commit: by one,
    unless the item is the last. *)
Theorem C8_save_never_rejects (coding_df : list item) (data_cat_names : list string)
    (st : session) (coder_name variable : value) (f : form) (now : string) (row : item) :
  current_item coding_df st = Some row →
  ∃ st' result,
    save_and_continue coding_df data_cat_names st coder_name variable f now = Some st' ∧
    coding_id_of result = coding_id row ∧
    result ∈ results st' ∧
    coding_id row ∈ coded_ids st' ∧
    (cites_data f = Yes → data_cat_other_checked f = true →
       dict_get "data_category_other" result = Some (VStr (data_category_other_text f))) ∧
    (argument_category f = OTHER →
       dict_get "argument_category_other" result
         = Some (VStr (argument_category_other_text f))) ∧
    (current_index st < total_arguments coding_df - 1 →
       current_index st' = current_index st + 1) ∧
    (current_index st = total_arguments coding_df - 1 →
       current_index st' = current_index st).
Proof.
  intros Hrow.
  destruct (save_and_continue coding_df data_cat_names st coder_name variable f now)
    as [st'|] eqn:Hs.
  - pose proof Hs as Hs'.
    apply save_and_continue_Some in Hs' as (row' & Hrow' & Hres & Hcoded & _ & _ & _ & Hidx).
    rewrite Hrow in Hrow'. injection Hrow' as <-.
    eexists st', _. split; [done|].
    split; [apply (make_result_coding_id data_cat_names)|].
    split; [rewrite Hres; apply upsert_elem_of|].
    split; [rewrite Hcoded; set_solver|].
    split; [|split; [|split]].
    + intros Hy Ho. cbn. unfold form_data_category_other. by rewrite Hy, Ho.
    + intros Ha. cbn. unfold form_argument_category_other.
      by rewrite Ha, String.eqb_refl.
    + intros Hlt. rewrite Hidx. by rewrite (proj2 (Z.ltb_lt _ _) Hlt).
    + intros Heq. rewrite Hidx, Heq. by rewrite Z.ltb_irrefl.
  - exfalso. unfold save_and_continue in Hs. by rewrite Hrow in Hs.
Qed.

(** The first item of a fresh session, saved with the "Other" data category
    checked and no text. *)
Lemma C8_save_never_rejects_witness :
  current_item Scenario.store fresh_session = Some (Item (VStr "Q1") "first quotation") ∧
  ∃ st' result,
    save_and_continue Scenario.store Scenario.data_cats fresh_session (VStr "Ann")
                      (VStr "Inflation") Scenario.other_without_text "2024-05-01T10:00:00"
      = Some st' ∧
    result ∈ results st' ∧
    dict_get "data_category_other" result = Some (VStr "") ∧
    current_index st' = 1.
Proof.
  split; [reflexivity|].
  destruct (C8_save_never_rejects Scenario.store Scenario.data_cats fresh_session
              (VStr "Ann") (VStr "Inflation") Scenario.other_without_text
              "2024-05-01T10:00:00" (Item (VStr "Q1") "first quotation") eq_refl)
    as (st' & result & Hs & _ & Hin & _ & Hother & _ & Hnext & _).
  exists st', result. split; [exact Hs|]. split; [exact Hin|].
  split; [apply Hother; reflexivity | apply Hnext; reflexivity].
Defined.

(** C8 as stated fails: the save with the "Other" data category checked and
    no text writes a record and moves the cursor. *)
Lemma C8_incomplete_form_is_saved :
  ¬ (∀ (st : session) (ui : sidebar_input) (f : form) (now : string),
       incomplete_form f →
       let st' := step Scenario.store Scenario.data_cats st ui (SaveAndContinue f now) in
       results st' = results st ∧ current_index st' = current_index st).
Proof.
  intros H.
  specialize (H fresh_session Scenario.ann Scenario.other_without_text
                "2024-05-01T10:00:00").
  destruct H as [_ H]; [left; done|].
  vm_compute in H. discriminate.
Qed.

(** ** Scores *)

Lemma make_result_score_in_range (data_cat_names : list string)
    (cid coder variable : value) (f : form) (now : string) :
  number_input_range (score f) →
  score_in_range (make_result data_cat_names cid coder variable f now).
Proof.
  intros Hr. exists (score f). split; [reflexivity|].
  unfold number_input_range, score_min_value, score_max_value in Hr. lia.
Qed.

(** A property of every record is kept by a commit of a record that has
    it. *)
Lemma upsert_Forall (P : record → Prop) (rs : list record) (cid : value)
    (result : record) :
  P result → Forall P rs → Forall P (upsert rs cid result).
Proof.
  intros Hp Hall. apply list.Forall_forall. intros r Hr.
  apply elem_of_upsert in Hr as [->|Hr]; [done|].
  rewrite list.Forall_forall in Hall. auto.
Qed.

(** The records after a successful load are rows of the file. *)
Lemma load_session_results_from_file (coding_df : list item) (st : session)
    (coder_name variable : value) (resume_df : table) (st' : session) (msg : message) :
  load_session coding_df st coder_name variable resume_df = (st', (true, msg)) →
  ∀ r, r ∈ results st' → r ∈ to_dict_records resume_df.
Proof.
  intros Hl r Hr. apply load_session_accepts in Hl as (ids & _ & Hres & _).
  rewrite Hres in Hr. unfold to_dict_records, isin_rows in *. simpl in Hr.
  apply list_elem_of_In, in_map_iff in Hr as (row & <- & Hrow).
  apply list_elem_of_In, list_elem_of_filter in Hrow as [_ Hrow].
  apply list_elem_of_In, in_map, list_elem_of_In, Hrow.
Qed.

(** What the two paths do with a score: the record a commit writes has a
    score that is an integer from -3 to 3, as the score widget returns no
    other; a resume stores the scores of the rows of the file as they are. *)
Lemma scores_kept_in_range (coding_df : list item) (data_cat_names : list string) :
  (∀ st coder_name variable f now st',
     save_and_continue coding_df data_cat_names st coder_name variable f now = Some st' →
     number_input_range (score f) →
     Forall score_in_range (results st) → Forall score_in_range (results st')) ∧
  (∀ st coder_name variable resume_df st' msg,
     load_session coding_df st coder_name variable resume_df = (st', (true, msg)) →
     (∀ r, r ∈ results st' → r ∈ to_dict_records resume_df) ∧
     (Forall score_in_range (to_dict_records resume_df) →
      Forall score_in_range (results st'))) ∧
  (∀ clicks,
     Forall score_from_widget clicks → Forall scores_in_file clicks →
     Forall score_in_range
            (results (run coding_df data_cat_names fresh_session clicks))).
Proof.
  assert (∀ st coder_name variable f now st',
     save_and_continue coding_df data_cat_names st coder_name variable f now = Some st' →
     number_input_range (score f) →
     Forall score_in_range (results st) → Forall score_in_range (results st')) as Hsave.
  { intros st cn var f now st' Hs Hr Hall.
    apply save_and_continue_Some in Hs as (row & _ & Hres & _).
    rewrite Hres. apply upsert_Forall; [|done].
    by apply make_result_score_in_range. }
  assert (∀ st coder_name variable resume_df st' msg,
     load_session coding_df st coder_name variable resume_df = (st', (true, msg)) →
     Forall score_in_range (to_dict_records resume_df) →
     Forall score_in_range (results st')) as Hload.
  { intros st cn var df st' msg Hl Hall.
    apply list.Forall_forall. intros r Hr.
    rewrite list.Forall_forall in Hall. apply Hall.
    by eapply load_session_results_from_file. }
  split; [exact Hsave|]. split.
  - intros st cn var df st' msg Hl. split; [|by eapply Hload].
    by eapply load_session_results_from_file.
  - intros clicks Hw Hf.
    apply (run_preserves coding_df data_cat_names
             (λ st, Forall score_in_range (results st))
             (λ c, score_from_widget c ∧ scores_in_file c));
      [|by apply Forall_and|by constructor].
    intros st ui a [Ha Hb] Hall.
    destruct (step_cases coding_df data_cat_names st ui a)
      as [(Hr & _)|[(cn & var & f & now & -> & _ & Hs)|(cn & var & df & msg & -> & _ & Hl)]].
    + by rewrite Hr.
    + by eapply Hsave.
    + by eapply Hload.
Qed.

(** C7: the code at the failing input.  The resume file has the columns
    coding_id, coder_name, score and the one row Q1, Ann, 7; the store has
    the items Q1, Q2, Q3.  "Load Session" accepts the file and stores the
    record with the score 7, which is not a score from -3 to 3, and moves to
    Q2.  The lines that compute the default of the score widget put 0 for a
    loaded score that is no number or is missing, and leave a number out of
    range as it is: back on Q1 the widget is given the default 7 within the
    bounds -3 and 3 and raises, no item is shown, and "Save & Continue" can
    not write a score over it. *)
Theorem C7_resume_stores_score_seven :
  let st := run Scenario.store Scenario.data_cats fresh_session
                [(Scenario.ann, LoadSession Scenario.score_seven)] in
  validate_resume_csv Scenario.score_seven Scenario.store
    = (true, Validated 1, {[ VStr "Q1" ]}) ∧
  results st = [[("coding_id", VStr "Q1"); ("coder_name", VStr "Ann"); ("score", VInt 7)]] ∧
  ¬ Forall score_in_range (results st) ∧
  current_index st = 1 ∧
  default_score (Some [("score", VNaN)]) = 0 ∧
  default_score (Some [("score", VStr "seven")]) = 0 ∧
  default_score (get_previous_coding (VStr "Q1") (results st)) = 7 ∧
  let back := step Scenario.store Scenario.data_cats st Scenario.ann Previous in
  current_index back = 0 ∧
  score_widget_renders back (VStr "Q1") = false ∧
  current_item Scenario.store back = None ∧
  ∀ (f : form) (now : string),
    step Scenario.store Scenario.data_cats back Scenario.ann (SaveAndContinue f now)
    = back.
Proof.
  intros st.
  assert (results st
          = [[("coding_id", VStr "Q1"); ("coder_name", VStr "Ann"); ("score", VInt 7)]])
    as Hres by (vm_compute; reflexivity).
  split; [vm_compute; reflexivity|]. split; [exact Hres|]. split.
  { rewrite Hres. intros H. apply list.Forall_cons in H as [(z & Hz & Hr) _].
    cbn in Hz. injection Hz as <-. lia. }
  split; [reflexivity|]. split; [reflexivity|]. split; [reflexivity|].
  split; [rewrite Hres; reflexivity|].
  intros back. split; [reflexivity|]. split; [vm_compute; reflexivity|].
  split; [vm_compute; reflexivity|].
  intros f now. reflexivity.
Qed.

(** ** Locking *)

Lemma dict_get_combine_Some (c : string) (cols : list string) (vals : list value)
    (v : value) :
  dict_get c (combine cols vals) = Some v → c ∈ cols.
Proof.
  revert vals. induction cols as [|c' cols IH]; intros [|v' vals]; simpl; try done.
  destruct (String.eqb_spec c c') as [->|Hne]; [set_solver|].
  intros Hg. apply IH in Hg. set_solver.
Qed.

Lemma dict_get_combine_is_Some (c : string) (cols : list string) (vals : list value) :
  (length cols ≤ length vals)%nat → c ∈ cols → is_Some (dict_get c (combine cols vals)).
Proof.
  revert vals. induction cols as [|c' cols IH]; intros [|v' vals]; simpl;
    try (intros; set_solver || lia).
  intros Hlen Hin. destruct (String.eqb_spec c c') as [->|Hne]; [eauto|].
  apply IH; [lia|set_solver].
Qed.

(** A row of a frame has a cell for a label exactly when the label is a
    column of the frame. *)
Lemma dict_get_row_dict (c : string) (cols : list string) (row : list value) :
  is_Some (dict_get c (row_dict cols row)) ↔ c ∈ cols.
Proof.
  unfold row_dict. split.
  - intros [v Hv]. by eapply dict_get_combine_Some.
  - apply dict_get_combine_is_Some. rewrite length_app, repeat_length. lia.
Qed.

Lemma validate_accepts (resume_df : table) (coding_df : list item)
    (msg : message) (ids : gset value) :
  validate_resume_csv resume_df coding_df = (true, msg, ids) →
  has_required_columns resume_df ∧
  ids = (list_to_set (column "coding_id" resume_df) : gset value)
          ∩ list_to_set (map coding_id coding_df) ∧
  ids ≠ ∅.
Proof.
  rewrite validate_resume_csv_cases. cbv zeta.
  destruct (decide (required_cols ⊆ _)) as [Hc|]; [|discriminate].
  apply has_required_columns_subseteq in Hc.
  destruct (decide (_ ∩ _ = ∅)) as [|Hne]; [discriminate|].
  destruct (decide (_ ⊆ _)); intros [= <- <-]; done.
Qed.

(** The validator lets a file through only when one of its rows is kept. *)
Lemma accepted_rows_nonempty (resume_df : table) (coding_df : list item)
    (msg : message) (ids : gset value) :
  validate_resume_csv resume_df coding_df = (true, msg, ids) →
  accepted_rows resume_df ids ≠ [].
Proof.
  intros Hv. apply validate_accepts in Hv as (_ & -> & Hne).
  apply set_choose_L in Hne as [x Hx].
  apply elem_of_intersection in Hx as [Ht Hs].
  apply elem_of_list_to_set, list_elem_of_In, in_map_iff in Ht as (row & Hid & Hrow).
  intros Hnil.
  assert (row ∈ accepted_rows resume_df
            ((list_to_set (column "coding_id" resume_df) : gset value)
               ∩ list_to_set (map coding_id coding_df))) as Hin.
  { rewrite accepted_rows_store. apply list_elem_of_filter.
    split; [|by apply list_elem_of_In]. unfold row_id. by rewrite Hid. }
  rewrite Hnil in Hin. set_solver.
Qed.

(** The first record of a successful load and the values it locks. *)
Lemma load_session_first (coding_df : list item) (st : session)
    (coder_name variable : value) (resume_df : table) (st' : session) (msg : message) :
  load_session coding_df st coder_name variable resume_df = (st', (true, msg)) →
  ∃ row rest_rows rest,
    results st' = row_dict (columns resume_df) row :: rest ∧
    rest = map (row_dict (columns resume_df)) rest_rows ∧
    has_required_columns resume_df ∧
    locked_coder_name st'
      = Some (dict_get_default "coder_name" coder_name (row_dict (columns resume_df) row)) ∧
    locked_variable st'
      = Some (dict_get_default "variable" variable (row_dict (columns resume_df) row)).
Proof.
  unfold load_session.
  destruct (validate_resume_csv resume_df coding_df) as [[is_valid m] ids] eqn:Hv.
  destruct is_valid; simpl; [|intros [= _ ?]; discriminate].
  pose proof (accepted_rows_nonempty _ _ _ _ Hv) as Hne.
  apply validate_accepts in Hv as (Hc & _ & _).
  unfold accepted_rows in Hne. unfold to_dict_records.
  destruct (rows (isin_rows "coding_id" ids resume_df)) as [|row rest_rows]; [done|].
  simpl. intros [= <- <-]. simpl. exists row, rest_rows. eauto 10.
Qed.

Lemma make_result_carries (data_cat_names : list string) (cid coder variable : value)
    (f : form) (now : string) :
  dict_get "coder_name" (make_result data_cat_names cid coder variable f now) = Some coder ∧
  dict_get "variable" (make_result data_cat_names cid coder variable f now) = Some variable.
Proof. split; reflexivity. Qed.

Lemma save_keeps_carries_locked (coding_df : list item) (data_cat_names : list string)
    (st : session) (coder_name variable : value) (f : form) (now : string)
    (st' : session) :
  save_and_continue coding_df data_cat_names st coder_name variable f now = Some st' →
  Forall (carries_locked st) (results st) → Forall (carries_locked st') (results st').
Proof.
  intros Hs Hall.
  apply save_and_continue_Some in Hs as (row & _ & Hres & _ & Hname & Hvar & _).
  cbv zeta in *. rewrite Hres. apply upsert_Forall.
  - unfold carries_locked. rewrite Hname, Hvar. cbn. eauto.
  - eapply list.Forall_impl; [exact Hall|].
    intros r ([v Hv] & Hr1 & [w Hw] & Hr2). unfold carries_locked.
    rewrite Hname, Hvar, Hv, Hw. simpl. rewrite Hr1, Hr2, Hv, Hw. eauto.
Qed.

(** C5 (as amended): the first commit of a session sets the locked coder name
    and the locked variable, to the values of the sidebar; a commit made when
    they are set leaves them as they are; the record a commit writes carries
    exactly the locked values, so that in a session without a resume all
    records carry the same coder name and variable.  A successful resume sets
    the locked coder name from the first accepted row of the file, and the
    locked variable from that row when the file has a column variable; when
    the file has none, the locked variable is the variable of the sidebar. *)
Theorem C5_identity_locking (coding_df : list item) (data_cat_names : list string) :
  (∀ st coder_name variable f now st',
     save_and_continue coding_df data_cat_names st coder_name variable f now = Some st' →
     (locked_coder_name st = None → locked_coder_name st' = Some coder_name) ∧
     (locked_variable st = None → locked_variable st' = Some variable) ∧
     (∀ v, locked_coder_name st = Some v → locked_coder_name st' = Some v) ∧
     (∀ v, locked_variable st = Some v → locked_variable st' = Some v) ∧
     (∃ row result,
         current_item coding_df st = Some row ∧ coding_id_of result = coding_id row ∧
         result ∈ results st' ∧ carries_locked st' result)) ∧
  (∀ clicks,
     Forall not_a_load clicks →
     let st := run coding_df data_cat_names fresh_session clicks in
     Forall (carries_locked st) (results st)) ∧
  (∀ st coder_name variable resume_df st' msg,
     load_session coding_df st coder_name variable resume_df = (st', (true, msg)) →
     ∃ first rest,
       results st' = first :: rest ∧
       is_Some (dict_get "coder_name" first) ∧
       locked_coder_name st' = dict_get "coder_name" first ∧
       ("variable" ∈ columns resume_df →
          is_Some (dict_get "variable" first) ∧
          locked_variable st' = dict_get "variable" first) ∧
       ("variable" ∉ columns resume_df →
          dict_get "variable" first = None ∧
          locked_variable st' = Some variable)).
Proof.
  split; [|split].
  - intros st cn var f now st' Hs.
    pose proof Hs as Hs'.
    apply save_and_continue_Some in Hs' as (row & Hrow & Hres & _ & Hname & Hvar & _).
    cbv zeta in *.
    split; [intros Hn; by rewrite Hname, Hn|].
    split; [intros Hn; by rewrite Hvar, Hn|].
    split; [intros v Hn; by rewrite Hname, Hn|].
    split; [intros v Hn; by rewrite Hvar, Hn|].
    eexists row, _. split; [done|].
    split; [apply (make_result_coding_id data_cat_names)|].
    split; [rewrite Hres; apply upsert_elem_of|].
    unfold carries_locked. rewrite Hname, Hvar. cbn. eauto.
  - intros clicks Hc st. subst st.
    apply (run_preserves coding_df data_cat_names
             (λ st, Forall (carries_locked st) (results st)) not_a_load);
      [|done|by constructor].
    intros st ui a Hnl Hall.
    destruct (step_cases coding_df data_cat_names st ui a)
      as [(Hr & _ & Hn & Hv)|[(cn & var & f & now & _ & _ & Hs)|(cn & var & df & msg & -> & _)]].
    + rewrite Hr. eapply list.Forall_impl; [exact Hall|].
      intros r. unfold carries_locked. by rewrite Hn, Hv.
    + by eapply save_keeps_carries_locked.
    + destruct Hnl.
  - intros st cn var df st' msg Hl.
    apply load_session_first in Hl
      as (row & rest_rows & rest & Hres & _ & (_ & Hcoder & _) & Hname & Hvar).
    exists (row_dict (columns df) row), rest. split; [done|].
    pose proof (proj2 (dict_get_row_dict "coder_name" (columns df) row) Hcoder) as [v Hv].
    split; [eauto|]. split.
    { rewrite Hname. unfold dict_get_default. by rewrite Hv. }
    split.
    + intros Hcol.
      pose proof (proj2 (dict_get_row_dict "variable" (columns df) row) Hcol) as [w Hw].
      split; [eauto|]. rewrite Hvar. unfold dict_get_default. by rewrite Hw.
    + intros Hcol.
      destruct (dict_get "variable" (row_dict (columns df) row)) as [w|] eqn:Hw.
      * exfalso. apply Hcol. apply (dict_get_row_dict "variable" (columns df) row). eauto.
      * split; [done|]. rewrite Hvar. unfold dict_get_default. by rewrite Hw.
Qed.

(** The resume of the file with Q1 and Q5, which has no column variable, in
    a session whose sidebar shows Employment. *)
Lemma C5_identity_locking_witness :
  ∃ st' first rest,
    load_session Scenario.store fresh_session (VStr "Bea") (VStr "Employment")
                 Scenario.q1_q5 = (st', (true, WarningNotFound 1)) ∧
    results st' = first :: rest ∧
    locked_coder_name st' = Some (VStr "Ann") ∧
    ("variable" ∉ columns Scenario.q1_q5) ∧
    dict_get "variable" first = None ∧
    locked_variable st' = Some (VStr "Employment").
Proof.
  destruct (load_session Scenario.store fresh_session (VStr "Bea") (VStr "Employment")
                         Scenario.q1_q5) as [st' fb] eqn:Hl.
  assert (fb = (true, WarningNotFound 1)) as ->
    by (vm_compute in Hl; congruence).
  destruct (proj2 (proj2 (C5_identity_locking Scenario.store Scenario.data_cats))
              _ _ _ _ _ _ Hl) as (first & rest & Hres & _ & Hname & _ & Hvar).
  assert ("variable" ∉ columns Scenario.q1_q5) as Hcol.
  { apply (bool_decide_unpack ("variable" ∉ columns Scenario.q1_q5)).
    vm_compute. exact I. }
  destruct (Hvar Hcol) as [Hnone Hlocked].
  exists st', first, rest. split; [reflexivity|]. split; [exact Hres|].
  split; [|by repeat split].
  vm_compute in Hl. injection Hl as <-. reflexivity.
Defined.

(** C5 as stated fails: the file of scenario C has no column variable, and
    its resume locks the variable of the sidebar, which the first accepted
    record does not hold. *)
Lemma C5_resume_locks_sidebar_variable :
  ¬ (∀ (st : session) (coder_name variable : value) (resume_df : table)
       (st' : session) (msg : message),
       load_session Scenario.store st coder_name variable resume_df = (st', (true, msg)) →
       ∃ first rest,
         results st' = first :: rest ∧
         locked_coder_name st' = dict_get "coder_name" first ∧
         locked_variable st' = dict_get "variable" first).
Proof.
  intros H.
  destruct (load_session Scenario.store fresh_session (VStr "Bea") (VStr "Employment")
                         Scenario.q1_q5) as [st' fb] eqn:Hl.
  assert (fb = (true, WarningNotFound 1)) as ->
    by (vm_compute in Hl; congruence).
  destruct (H _ _ _ _ _ _ Hl) as (first & rest & Hres & _ & Hvar).
  vm_compute in Hl. injection Hl as <-.
  simpl in Hres. injection Hres as <- _. discriminate Hvar.
Qed.

(** ** Conditional fields *)

Lemma append_assoc (a b c : string) : (a +:+ b) +:+ c = a +:+ b +:+ c.
Proof.
  induction a as [|x a IH]; [done|].
  change (String x ((a +:+ b) +:+ c) = String x (a +:+ b +:+ c)).
  by rewrite IH.
Qed.

Lemma join_snoc (sep : string) (l : list string) (y : string) :
  l ≠ [] → join sep (l ++ [y]) = join sep l +:+ sep +:+ y.
Proof.
  induction l as [|x l IH]; [done|]. intros _.
  destruct l as [|x' l]; [reflexivity|].
  change (join sep ((x :: x' :: l) ++ [y]))
    with (x +:+ sep +:+ join sep ((x' :: l) ++ [y])).
  rewrite IH by done.
  change (join sep (x :: x' :: l)) with (x +:+ sep +:+ join sep (x' :: l)).
  by rewrite !append_assoc.
Qed.

Lemma split_aux_two (c c' : ascii) (rest : string) (acc : list ascii) :
  split_aux (String c (String c' rest)) acc
  = if Ascii.eqb c ";" && Ascii.eqb c' " "
    then string_of_list_ascii (rev acc) :: split_aux rest []
    else split_aux (String c' rest) (c :: acc).
Proof. reflexivity. Qed.

(** Whatever comes before it, the text after the last "; " is a piece of the
    split when it is the name of the "Other" category. *)
Lemma split_aux_other (p : string) (acc : list ascii) :
  OTHER ∈ split_aux (p +:+ "; " +:+ OTHER) acc.
Proof.
  remember (String.length p) as n eqn:Hn. revert p acc Hn.
  induction n as [n IH] using lt_wf_ind. intros p acc Hn.
  destruct p as [|c p'].
  - cbn. set_solver.
  - destruct p' as [|c' p''].
    + change (String c "" +:+ "; " +:+ OTHER)
        with (String c (String ";" ("" +:+ " " +:+ OTHER))).
      rewrite split_aux_two.
      assert (Ascii.eqb c ";" && Ascii.eqb ";" " " = false) as ->
        by (destruct (Ascii.eqb c ";"); reflexivity).
      apply (IH 0%nat (ltac:(simpl in Hn; lia)) "" (c :: acc) eq_refl).
    + change (String c (String c' p'') +:+ "; " +:+ OTHER)
        with (String c (String c' (p'' +:+ "; " +:+ OTHER))).
      rewrite split_aux_two.
      destruct (Ascii.eqb c ";" && Ascii.eqb c' " ").
      * apply elem_of_cons. right.
        apply (IH (String.length p'') (ltac:(simpl in Hn; lia)) p'' [] eq_refl).
      * apply (IH (String.length (String c' p'')) (ltac:(simpl in Hn; simpl; lia))
                  (String c' p'') (c :: acc) eq_refl).
Qed.

Lemma split_join_other (l : list string) :
  OTHER ∈ split_semicolon (join "; " (l ++ [OTHER])).
Proof.
  unfold split_semicolon. destruct l as [|x l].
  - cbn. set_solver.
  - rewrite join_snoc by done. apply split_aux_other.
Qed.

(** The record the save handler builds has conditional-field integrity. *)
Lemma make_result_conditional_fields_ok (data_cat_names : list string)
    (cid coder variable : value) (f : form) (now : string) :
  conditional_fields_ok (make_result data_cat_names cid coder variable f now).
Proof.
  unfold conditional_fields_ok, make_result, field, dict_get_default.
  cbn [dict_get String.eqb Ascii.eqb Bool.eqb].
  unfold form_data_categories, form_data_category_other, form_information_type,
    form_argument_category_other.
  split; [|split].
  - destruct (cites_data f); [discriminate|]. intros _.
    repeat split; by left.
  - destruct (cites_data f); [|intros H; exfalso; apply H; by left].
    destruct (data_cat_other_checked f); [|intros H; exfalso; apply H; by left].
    intros _.
    destruct (checked_names data_cat_names (data_cat_checked f) ++ [OTHER])%list
      as [|x l] eqn:Hl.
    { by apply app_nil in Hl as [_ ?]. }
    rewrite <- Hl. eexists. split; [reflexivity|]. apply split_join_other.
  - destruct (String.eqb_spec (argument_category f) OTHER) as [->|Hne]; [done|].
    intros _. by left.
Qed.

(** A property that every record written by a save has, and every row of
    every file loaded, is a property of every record of the session. *)
Lemma run_records_Forall (coding_df : list item) (data_cat_names : list string)
    (P : record → Prop) (Q : sidebar_input * action → Prop) :
  (∀ cid coder variable f now,
     P (make_result data_cat_names cid coder variable f now)) →
  (∀ ui resume_df, Q (ui, LoadSession resume_df) → Forall P (to_dict_records resume_df)) →
  ∀ clicks,
    Forall Q clicks →
    Forall P (results (run coding_df data_cat_names fresh_session clicks)).
Proof.
  intros Hsave Hload clicks Hq.
  apply (run_preserves coding_df data_cat_names (λ st, Forall P (results st)) Q);
    [|done|by constructor].
  intros st ui a Ha Hall.
  destruct (step_cases coding_df data_cat_names st ui a)
    as [(Hr & _)|[(cn & var & f & now & -> & _ & Hs)|(cn & var & df & msg & -> & _ & Hl)]].
  - by rewrite Hr.
  - apply save_and_continue_Some in Hs as (row & _ & Hres & _).
    rewrite Hres. by apply upsert_Forall.
  - apply list.Forall_forall. intros r Hr.
    specialize (Hload ui df Ha). rewrite list.Forall_forall in Hload.
    apply Hload. by eapply load_session_results_from_file.
Qed.

(** C6 (as amended): the record a commit writes has conditional-field
    integrity: with cites_data "No" the fields data_categories,
    data_category_other and information_type are absent, data_category_other
    is present only with "Other / No Good Match" among the data_categories,
    and argument_category_other is absent unless argument_category is that
    sentinel.  A resume stores the rows of the file as they are, so the
    integrity holds for every record of the session record set after a
    commit when it held before, after a resume when it holds for the rows of
    the file, and throughout every session whose files are all such, the
    sessions without a resume among them. *)
Theorem C6_conditional_field_integrity (coding_df : list item)
    (data_cat_names : list string) :
  (∀ cid coder variable f now,
     conditional_fields_ok (make_result data_cat_names cid coder variable f now)) ∧
  (∀ st coder_name variable f now st',
     save_and_continue coding_df data_cat_names st coder_name variable f now = Some st' →
     Forall conditional_fields_ok (results st) →
     Forall conditional_fields_ok (results st')) ∧
  (∀ st coder_name variable resume_df st' msg,
     load_session coding_df st coder_name variable resume_df = (st', (true, msg)) →
     Forall conditional_fields_ok (to_dict_records resume_df) →
     Forall conditional_fields_ok (results st')) ∧
  (∀ clicks,
     Forall fields_in_file clicks →
     Forall conditional_fields_ok
            (results (run coding_df data_cat_names fresh_session clicks))).
Proof.
  split; [|split; [|split]].
  - intros *. apply make_result_conditional_fields_ok.
  - intros st cn var f now st' Hs Hall.
    apply save_and_continue_Some in Hs as (row & _ & Hres & _).
    rewrite Hres. apply upsert_Forall; [|done].
    apply make_result_conditional_fields_ok.
  - intros st cn var df st' msg Hl Hall.
    apply list.Forall_forall. intros r Hr.
    rewrite list.Forall_forall in Hall. apply Hall.
    by eapply load_session_results_from_file.
  - apply run_records_Forall.
    + intros *. apply make_result_conditional_fields_ok.
    + intros ui df Hq. exact Hq.
Qed.

(** The session of three saves loads no file, and its three records have
    conditional-field integrity. *)
Lemma C6_conditional_field_integrity_witness :
  Forall fields_in_file Scenario.three_saves ∧
  Forall conditional_fields_ok
         (results (run Scenario.store Scenario.data_cats fresh_session
                       Scenario.three_saves)).
Proof.
  assert (Forall fields_in_file Scenario.three_saves) as Hf by (repeat constructor).
  split; [exact Hf|].
  exact (proj2 (proj2 (proj2
           (C6_conditional_field_integrity Scenario.store Scenario.data_cats)))
           Scenario.three_saves Hf).
Defined.

(** C6 as stated fails: the resume of a file whose row has cites_data "No"
    and a data category leaves that row in the record set. *)
Lemma C6_resume_keeps_stale_data_categories :
  ¬ (∀ clicks : list (sidebar_input * action),
       Forall conditional_fields_ok
              (results (run Scenario.store Scenario.data_cats fresh_session clicks))).
Proof.
  intros H.
  specialize (H [(Scenario.ann, LoadSession Scenario.stale_data_categories)]).
  assert (results (run Scenario.store Scenario.data_cats fresh_session
                       [(Scenario.ann, LoadSession Scenario.stale_data_categories)])
          = [[("coding_id", VStr "Q1"); ("coder_name", VStr "Ann"); ("score", VInt 1);
              ("cites_data", VStr "No"); ("data_categories", VStr "Prices")]])
    as Hres by (vm_compute; reflexivity).
  rewrite Hres in H. apply list.Forall_cons in H as [(Hno & _) _].
  destruct (Hno eq_refl) as ([Hc|Hc] & _); discriminate Hc.
Qed.

(** ** Export and resume *)

Lemma print_int_no_plus (z : Z) (digits : string) :
  print_int z ≠ String "+" digits.
Proof.
  unfold print_int, NilZero.string_of_int.
  destruct z as [|p|p]; simpl; try discriminate.
  unfold NilZero.string_of_uint.
  destruct (Pos.to_uint p); simpl; discriminate.
Qed.

Lemma parse_print_int (z : Z) : parse_int (print_int z) = Some z.
Proof.
  unfold parse_int.
  pose proof (print_int_no_plus z) as Hplus.
  assert (Z.of_int <$> NilZero.int_of_string (print_int z) = Some z) as Hparse;
    [|destruct (print_int z) as [|c rest]; [exact Hparse|];
      destruct (Ascii.eqb_spec c "+") as [->|Hc];
        [by destruct (Hplus rest)|];
      destruct c as [[] [] [] [] [] [] [] []]; try exact Hparse; by destruct Hc].
  unfold print_int.
  rewrite NilZero.isi.
  - simpl. by rewrite DecimalZ.of_to.
  - destruct z; simpl; try discriminate.
    intros [= H]. by apply DecimalPos.Unsigned.to_uint_nonnil in H.
  - destruct z; simpl; try discriminate.
    intros [= H]. by apply DecimalPos.Unsigned.to_uint_nonnil in H.
Qed.

Lemma plain_text_not_na (s : string) : plain_text s = true → is_na s = false.
Proof.
  intros Hp. unfold is_na. apply bool_decide_eq_false. intros Hin.
  unfold na_values in Hin.
  repeat (apply elem_of_cons in Hin as [->|Hin]; [vm_compute in Hp; discriminate|]).
  by apply elem_of_nil in Hin.
Qed.

Lemma plain_text_not_int (s : string) : plain_text s = true → is_int s = false.
Proof.
  destruct s as [|c s]; [discriminate|]. intros Hp.
  apply andb_true_iff in Hp as [Hc _].
  unfold is_int, parse_int, NilZero.int_of_string, NilZero.uint_of_string.
  destruct c as [[] [] [] [] [] [] [] []]; try discriminate Hc;
    cbn; destruct (NilEmpty.uint_of_string s); reflexivity.
Qed.

Lemma elem_of_nub (x : string) (l : list string) : x ∈ nub l → x ∈ l.
Proof.
  induction l as [|y l IH]; simpl; [done|].
  intros Hx. apply elem_of_cons in Hx as [->|Hx]; [set_solver|].
  apply list_elem_of_filter in Hx as [_ Hx]. set_solver.
Qed.

Lemma nub_NoDup (l : list string) : NoDup l → nub l = l.
Proof.
  induction 1 as [|x l Hx Hl IH]; simpl; [done|].
  rewrite IH. f_equal. clear IH Hl.
  induction l as [|y l IH]; [done|].
  rewrite filter_cons. rewrite decide_True by set_solver.
  f_equal. apply IH. set_solver.
Qed.

Lemma filter_none {A} (P : A → Prop) `{∀ x, Decision (P x)} (l : list A) :
  Forall (λ x, ¬ P x) l → filter P l = [].
Proof.
  induction 1 as [|x l Hx Hl IH]; [done|].
  by rewrite filter_cons, decide_False.
Qed.

Lemma filter_all {A} (P : A → Prop) `{∀ x, Decision (P x)} (l : list A) :
  Forall P l → filter P l = l.
Proof.
  induction 1 as [|x l Hx Hl IH]; [done|].
  rewrite filter_cons, decide_True by done. by rewrite IH.
Qed.

Lemma nub_filter (P : string → Prop) `{∀ x, Decision (P x)} (l : list string) :
  filter P (nub l) = nub (filter P l).
Proof.
  induction l as [|x l IH]; simpl; [done|].
  rewrite !filter_cons. destruct (decide (P x)) as [Hx|Hx]; simpl.
  - f_equal. rewrite <- IH, !list_filter_filter. apply list_filter_iff. tauto.
  - transitivity (filter (λ y, y ≠ x) (filter P (nub l))).
    { rewrite !list_filter_filter. apply list_filter_iff. tauto. }
    rewrite IH. apply filter_all, list.Forall_forall.
    intros y Hy. apply elem_of_nub, list_elem_of_filter in Hy as [Hy _]. congruence.
Qed.

(** The keys of dictionaries that all have the keys [K], and at least one
    of them, are [K]. *)
Lemma nub_app_known (K l : list string) :
  NoDup K → (∀ x, x ∈ l → x ∈ K) → nub (K ++ l) = K.
Proof.
  intros Hnd. revert l. induction Hnd as [|k K Hk Hnd IH]; intros l Hl.
  - simpl. destruct l as [|x l]; [done|]. specialize (Hl x). set_solver.
  - simpl. rewrite nub_filter, list.filter_app.
    rewrite (filter_all _ K) by (apply list.Forall_forall; set_solver).
    rewrite IH; [done|].
    intros x Hx. apply list_elem_of_filter in Hx as [Hne Hx].
    specialize (Hl x Hx). set_solver.
Qed.

Lemma map_const_known {A B} (g : A → B) (K : B) (l : list A) :
  Forall (λ x, g x = K) l → ∀ y, y ∈ map g l → y = K.
Proof.
  intros Hall y Hy. apply list_elem_of_In, in_map_iff in Hy as (x & <- & Hx).
  rewrite list.Forall_forall in Hall. apply Hall. by apply list_elem_of_In.
Qed.

(** The frame of records that all have the keys [K]. *)
Lemma DataFrame_uniform (K : list string) (rs : list record) :
  NoDup K → rs ≠ [] → Forall (λ r, map fst r = K) rs →
  DataFrame rs = Table K (map (λ r, map (λ c, field c r) K) rs).
Proof.
  intros Hnd Hne Hall. unfold DataFrame.
  assert (nub (concat (map (map fst) rs)) = K) as ->; [|done].
  destruct rs as [|r rs]; [done|]. simpl.
  apply list.Forall_cons in Hall as [-> Hall].
  apply nub_app_known; [done|].
  intros x Hx. apply list_elem_of_In, in_concat in Hx as (ks & Hks & Hx).
  apply list_elem_of_In in Hks, Hx.
  apply (map_const_known (map fst) K) in Hks; [by subst|done].
Qed.

Lemma infer_dtypes_frame {A} (g : A → string → string) (K : list string) (rs : list A) :
  infer_dtypes (length K) (map (λ r, map (g r) K) rs)
  = map (λ k, column_dtype (map (λ r, g r k) rs)) K.
Proof.
  induction K as [|k K IH]; [done|]. simpl.
  rewrite !map_map. simpl. f_equal. exact IH.
Qed.

Lemma zip_with_map_map {A B C D} (f : B → C → D) (a : A → B) (b : A → C) (K : list A) :
  zip_with f (map a K) (map b K) = map (λ k, f (a k) (b k)) K.
Proof. induction K as [|k K IH]; [done|]. simpl. by rewrite IH. Qed.

(** What [read_csv] makes of the export of records that all have the keys
    [K]: cell by cell, the cell read in the type of its column. *)
Lemma read_csv_export (K : list string) (rs : list record) :
  NoDup K → rs ≠ [] → Forall (λ r, map fst r = K) rs →
  read_csv (get_results_csv rs)
  = Table K
      (map (λ r,
              map (λ k, read_cell (exported_dtype rs k) (cell_text (field k r))) K)
           rs).
Proof.
  intros Hnd Hne Hall. unfold get_results_csv.
  rewrite (DataFrame_uniform K) by done.
  unfold read_csv, to_csv. simpl. f_equal.
  rewrite !map_map.
  rewrite (map_ext (λ r, map cell_text (map (λ c, field c r) K))
                   (λ r, map (λ c, cell_text (field c r)) K))
    by (intros; apply map_map).
  rewrite (infer_dtypes_frame (λ r c, cell_text (field c r))).
  apply map_ext. intros r. rewrite map_map. apply zip_with_map_map.
Qed.

(** The cell of a row of a frame under one of its labels. *)
Lemma field_row_dict_map (K : list string) (f : string → value) (k : string) :
  k ∈ K → field k (row_dict K (map f K)) = f k.
Proof.
  intros Hk. unfold row_dict. rewrite length_map, Nat.sub_diag. simpl.
  rewrite app_nil_r. unfold field, dict_get_default.
  induction K as [|k' K IH]; [set_solver|]. simpl.
  destruct (String.eqb_spec k k') as [->|Hne]; [done|].
  apply IH. set_solver.
Qed.

(** A column of numbers comes back as it was. *)
Lemma read_number_column (rs : list record) (k : string) (r : record) :
  Forall (λ r', ∃ z, field k r' = VInt z) rs → r ∈ rs →
  read_cell (exported_dtype rs k) (cell_text (field k r)) = field k r.
Proof.
  intros Hall Hr.
  assert (exported_dtype rs k = Numeric) as ->.
  { unfold exported_dtype, column_dtype.
    rewrite (proj2 (forallb_forall _ _)); [done|].
    intros t Ht. apply in_map_iff in Ht as (r' & <- & Hr').
    rewrite list.Forall_forall in Hall.
    destruct (Hall r' (proj2 (list_elem_of_In _ _) Hr')) as [z ->].
    unfold is_int. simpl. rewrite parse_print_int. apply orb_true_r. }
  rewrite list.Forall_forall in Hall. destruct (Hall r Hr) as [z ->].
  simpl. by rewrite parse_print_int.
Qed.

(** A cell of plain text comes back as it was, whatever else is in its
    column. *)
Lemma read_plain_text_cell (rs : list record) (k : string) (r : record) (s : string) :
  r ∈ rs → field k r = VStr s → plain_text s = true →
  read_cell (exported_dtype rs k) (cell_text (field k r)) = VStr s.
Proof.
  intros Hr Hs Hp.
  pose proof (plain_text_not_na s Hp) as Hna.
  pose proof (plain_text_not_int s Hp) as Hint.
  assert (exported_dtype rs k = Object) as ->.
  { unfold exported_dtype, column_dtype.
    destruct (forallb _ _) eqn:Hf; [|done].
    rewrite forallb_forall in Hf.
    specialize (Hf s). rewrite Hna, Hint in Hf. discriminate Hf.
    apply in_map_iff. exists r. rewrite Hs. split; [done|]. by apply list_elem_of_In. }
  rewrite Hs. simpl. by rewrite Hna.
Qed.

(** An absent cell comes back as a missing one. *)
Lemma read_absent_cell (rs : list record) (k : string) (r : record) :
  absent (field k r) → read_cell (exported_dtype rs k) (cell_text (field k r)) = VNaN.
Proof. intros [->| ->]; destruct (exported_dtype rs k); reflexivity. Qed.

Lemma Forall2_map_diag {A B} (R : A → B → Prop) (g : A → B) (l : list A) :
  (∀ x, x ∈ l → R x (g x)) → Forall2 R l (map g l).
Proof.
  induction l as [|x l IH]; intros H; simpl; constructor.
  - apply H. set_solver.
  - apply IH. intros y Hy. apply H. set_solver.
Qed.

Lemma load_session_of_valid (coding_df : list item) (st : session)
    (coder_name variable : value) (resume_df : table) (msg : message) (ids : gset value) :
  validate_resume_csv resume_df coding_df = (true, msg, ids) →
  ∃ st', load_session coding_df st coder_name variable resume_df = (st', (true, msg)).
Proof.
  intros Hv. unfold load_session. rewrite Hv. simpl.
  destruct (to_dict_records _); eauto.
Qed.

Lemma result_keys_NoDup : NoDup result_keys.
Proof. apply (bool_decide_unpack (NoDup result_keys)). vm_compute. exact I. Qed.

Lemma record_ids_nonempty (rs : list record) :
  rs ≠ [] → (list_to_set (map coding_id_of rs) : gset value) ≠ ∅.
Proof.
  destruct rs as [|r rs]; [done|]. intros _ Hempty.
  apply (not_elem_of_empty (C := gset value) (coding_id_of r)).
  rewrite <- Hempty. apply elem_of_list_to_set. simpl. left.
Qed.

Lemma nub_elem_of (x : string) (l : list string) : x ∈ l → x ∈ nub l.
Proof.
  induction l as [|y l IH]; simpl; [done|].
  intros Hx. destruct (decide (x = y)) as [->|Hne]; [left|].
  right. apply list_elem_of_filter. split; [done|].
  apply IH. apply elem_of_cons in Hx as [?|?]; done.
Qed.

Lemma dict_get_key (k : string) (r : record) : is_Some (dict_get k r) → k ∈ map fst r.
Proof.
  induction r as [|[k' v] r IH]; simpl; [by intros [? ?]|].
  destruct (String.eqb_spec k k') as [->|Hne]; [left|].
  intros H. right. auto.
Qed.

(** A key of a record is a column of the frame of the records. *)
Lemma DataFrame_columns_key (rs : list record) (r : record) (k : string) :
  r ∈ rs → is_Some (dict_get k r) → k ∈ columns (DataFrame rs).
Proof.
  intros Hr Hk. unfold DataFrame. simpl. apply nub_elem_of.
  apply list_elem_of_In, in_concat. exists (map fst r). split.
  - apply in_map, list_elem_of_In, Hr.
  - apply list_elem_of_In, dict_get_key, Hk.
Qed.

(** A label that is no column of the frame is a key of no record. *)
Lemma field_no_column (rs : list record) (r : record) (k : string) :
  r ∈ rs → k ∉ columns (DataFrame rs) → field k r = VNaN.
Proof.
  intros Hr Hk. unfold field, dict_get_default.
  destruct (dict_get k r) eqn:Hd; [|done].
  exfalso. apply Hk. eapply DataFrame_columns_key; eauto.
Qed.

Lemma field_row_dict_no_column (K : list string) (row : list value) (k : string) :
  k ∉ K → field k (row_dict K row) = VNaN.
Proof.
  intros Hk. unfold field, dict_get_default.
  destruct (dict_get k (row_dict K row)) eqn:Hd; [|done].
  exfalso. apply Hk. apply (dict_get_row_dict k K row). eauto.
Qed.

(** What [read_csv] makes of the export of any records: the columns are the
    keys of the records, and each cell is read in the type of its column. *)
Lemma read_csv_export_columns (rs : list record) :
  read_csv (get_results_csv rs)
  = Table (columns (DataFrame rs))
      (map (λ r,
              map (λ k, read_cell (exported_dtype rs k) (cell_text (field k r)))
                  (columns (DataFrame rs)))
           rs).
Proof.
  unfold get_results_csv, DataFrame. cbn [columns].
  set (K := nub (concat (map (map fst) rs))).
  unfold read_csv, to_csv. cbn [columns rows header body]. f_equal.
  rewrite !map_map.
  rewrite (map_ext (λ r, map cell_text (map (λ c, field c r) K))
                   (λ r, map (λ c, cell_text (field c r)) K))
    by (intros; apply map_map).
  rewrite (infer_dtypes_frame (λ r c, cell_text (field c r))).
  apply map_ext. intros r. rewrite map_map. apply zip_with_map_map.
Qed.

(** A column of numbers and missing cells comes back as it was. *)
Lemma read_number_or_missing_column (rs : list record) (k : string) (r : record) :
  Forall (λ r', (∃ z, field k r' = VInt z) ∨ field k r' = VNaN) rs → r ∈ rs →
  read_cell (exported_dtype rs k) (cell_text (field k r)) = field k r.
Proof.
  intros Hall Hr.
  assert (exported_dtype rs k = Numeric) as ->.
  { unfold exported_dtype, column_dtype.
    rewrite (proj2 (forallb_forall _ _)); [done|].
    intros t Ht. apply in_map_iff in Ht as (r' & <- & Hr').
    rewrite list.Forall_forall in Hall.
    destruct (Hall r' (proj2 (list_elem_of_In _ _) Hr')) as [[z ->]| ->].
    - unfold is_int. simpl. rewrite parse_print_int. apply orb_true_r.
    - reflexivity. }
  rewrite list.Forall_forall in Hall. destruct (Hall r Hr) as [[z ->]| ->].
  - simpl. by rewrite parse_print_int.
  - reflexivity.
Qed.

(** Export and resume of an exportable record list: the validator lets the
    file through without a warning, no row is left out, and the records come
    back equivalent, in the order they had. *)
Lemma export_resume_round_trip (coding_df : list item) (rs : list record)
    (st : session) (coder_name variable : value) :
  exportable coding_df rs →
  ∃ st' n,
    resume_from_export coding_df rs st coder_name variable
      = (st', (true, Validated n)) ∧
    Forall2 equivalent_records rs (results st') ∧
    coded_ids st' = list_to_set (map coding_id_of rs) ∧
    current_index st' = jump_target coding_df (coded_ids st').
Proof.
  intros (Hne & Hkeys & Hstore & Hids & Hscore & Hcat).
  unfold resume_from_export. rewrite read_csv_export_columns.
  set (K := columns (DataFrame rs)).
  set (h := λ (r : record) (k : string),
              read_cell (exported_dtype rs k) (cell_text (field k r))).
  set (df := Table K (map (λ r, map (h r) K) rs)).
  assert ("coding_id" ∈ K ∧ "coder_name" ∈ K ∧ "score" ∈ K) as (Kid & Kname & Kscore).
  { destruct rs as [|r0 rs0]; [done|].
    apply list.Forall_cons in Hkeys as [(H1 & H2 & H3) _].
    repeat split; apply (DataFrame_columns_key _ r0); try done; left. }
  (* the identifiers come back as they were *)
  assert (∀ r, r ∈ rs → h r "coding_id" = coding_id_of r) as Hid.
  { intros r Hr. unfold h, coding_id_of. destruct Hids as [Hint|Htext].
    - by apply read_number_column.
    - rewrite list.Forall_forall in Htext. destruct (Htext r Hr) as (s & Hs & Hp).
      unfold coding_id_of in Hs. rewrite Hs at 2.
      by apply (read_plain_text_cell rs "coding_id" r s). }
  assert (∀ row, row ∈ rows df → ∃ r, r ∈ rs ∧ row = map (h r) K) as Hrows.
  { intros row Hrow. apply list_elem_of_In, in_map_iff in Hrow as (r & <- & Hr).
    exists r. split; [by apply list_elem_of_In | done]. }
  assert (∀ r, r ∈ rs → row_id df (map (h r) K) = coding_id_of r) as Hrid.
  { intros r Hr. unfold row_id. simpl columns.
    rewrite (field_row_dict_map K (h r)) by done.
    by apply Hid. }
  assert (column "coding_id" df = map coding_id_of rs) as Hcol.
  { unfold column. simpl rows. rewrite map_map. apply map_ext_in.
    intros r Hr. apply (Hrid r), list_elem_of_In, Hr. }
  (* the validator *)
  pose proof (validate_resume_csv_cases df coding_df) as Hv. cbv zeta in Hv.
  rewrite Hcol in Hv.
  set (table_ids := (list_to_set (map coding_id_of rs) : gset value)) in *.
  set (store_ids := (list_to_set (map coding_id coding_df) : gset value)) in *.
  assert (table_ids ⊆ store_ids) as Hsub.
  { intros x Hx. apply elem_of_list_to_set, list_elem_of_In, in_map_iff in Hx
      as (r & <- & Hr).
    rewrite list.Forall_forall in Hstore.
    apply elem_of_list_to_set, Hstore, list_elem_of_In, Hr. }
  assert (table_ids ∩ store_ids = table_ids) as Hinter
    by (by apply subseteq_intersection_1_L).
  assert (table_ids ≠ ∅) as Hnonempty by (by apply record_ids_nonempty).
  rewrite decide_True in Hv
    by (apply has_required_columns_subseteq; unfold has_required_columns, df;
          simpl; done).
  rewrite Hinter in Hv. rewrite decide_False in Hv by done.
  rewrite decide_True in Hv by done.
  destruct (load_session_of_valid coding_df st coder_name variable df _ _ Hv)
    as [st' Hl].
  exists st', (size table_ids). split; [exact Hl|].
  apply load_session_accepts in Hl as (ids & Hv' & Hres & Hcoded & Hidx & _).
  rewrite Hv in Hv'. injection Hv' as <-.
  (* no row is left out *)
  assert (results st' = map (λ r, row_dict K (map (h r) K)) rs)
    as Hresults.
  { rewrite Hres. unfold to_dict_records, isin_rows. simpl.
    rewrite filter_all; [by rewrite map_map|].
    apply list.Forall_forall. intros row Hrow.
    destruct (Hrows row Hrow) as (r & Hr & ->).
    change (row_id df (map (h r) K) ∈ table_ids). rewrite Hrid by done.
    apply elem_of_list_to_set, list_elem_of_In, in_map, list_elem_of_In, Hr. }
  assert (map coding_id_of (results st') = map coding_id_of rs) as Hsame_ids.
  { rewrite Hresults, map_map. apply map_ext_in. intros r Hr.
    apply (Hrid r), list_elem_of_In, Hr. }
  split; [|split; [by rewrite Hcoded, Hsame_ids | done]].
  rewrite Hresults. apply Forall2_map_diag. intros r Hr.
  unfold equivalent_records.
  rewrite !(field_row_dict_map K (h r)) by done.
  split; [by apply Hid|]. split; [by apply read_number_or_missing_column|].
  intros k Hk. destruct (decide (k ∈ K)) as [HkK|HkK].
  - rewrite (field_row_dict_map K (h r) k) by done.
    rewrite list.Forall_forall in Hcat. unfold h.
    destruct (Hcat r Hr k Hk) as [Habs|(s & Hs & Hp)].
    + right. split; [done|]. rewrite read_absent_cell by done. by right.
    + left. rewrite Hs at 2. by apply (read_plain_text_cell rs k r s).
  - left. rewrite field_row_dict_no_column by done.
    by rewrite (field_no_column rs r k).
Qed.

(** The records of a session have the required keys. *)
Lemma run_required_keys (coding_df : list item) (data_cat_names : list string)
    (clicks : list (sidebar_input * action)) :
  Forall has_required_keys (results (run coding_df data_cat_names fresh_session clicks)).
Proof.
  apply (run_preserves coding_df data_cat_names
           (λ st, Forall has_required_keys (results st)) (λ _, True));
    [|by apply Forall_true|by constructor].
  intros st ui a _ Hall.
  destruct (step_cases coding_df data_cat_names st ui a)
    as [(Hr & _)|[(cn & var & f & now & _ & _ & Hs)|(cn & var & df & msg & _ & _ & Hl)]].
  - by rewrite Hr.
  - apply save_and_continue_Some in Hs as (row & _ & Hres & _).
    rewrite Hres. apply upsert_Forall; [|done].
    repeat split; eexists; reflexivity.
  - apply load_session_accepts in Hl as (ids & Hv & Hres & _).
    apply validate_accepts in Hv as ((Hid & Hname & Hscore) & _).
    rewrite Hres. apply list.Forall_forall. intros r Hr.
    unfold to_dict_records, isin_rows in Hr. simpl in Hr.
    apply list_elem_of_In, in_map_iff in Hr as (row & <- & _).
    repeat split; by apply dict_get_row_dict.
Qed.

(** The identifiers of the rows a load keeps are identifiers of the store. *)
Lemma load_session_ids_in_store (coding_df : list item) (st : session)
    (coder_name variable : value) (resume_df : table) (st' : session) (msg : message) :
  load_session coding_df st coder_name variable resume_df = (st', (true, msg)) →
  ∀ r, r ∈ results st' → coding_id_of r ∈ map coding_id coding_df.
Proof.
  intros Hl r Hr.
  apply load_session_accepts in Hl as (ids & Hv & Hres & _).
  apply validate_accepts in Hv as (_ & -> & _).
  rewrite Hres in Hr. unfold to_dict_records, isin_rows in Hr. simpl in Hr.
  apply list_elem_of_In, in_map_iff in Hr as (row & <- & Hrow).
  apply list_elem_of_In, list_elem_of_filter in Hrow as [Hin _].
  apply elem_of_intersection in Hin as [_ Hin].
  by apply elem_of_list_to_set in Hin.
Qed.

(** The records of a session are records of items of the store. *)
Lemma run_ids_in_store (coding_df : list item) (data_cat_names : list string)
    (clicks : list (sidebar_input * action)) :
  ∀ r, r ∈ results (run coding_df data_cat_names fresh_session clicks) →
       coding_id_of r ∈ map coding_id coding_df.
Proof.
  apply (run_preserves coding_df data_cat_names
           (λ st, ∀ r, r ∈ results st → coding_id_of r ∈ map coding_id coding_df)
           (λ _, True)); [|by apply Forall_true|intros r Hr; by apply elem_of_nil in Hr].
  intros st0 ui a _ Hinv.
  destruct (step_cases coding_df data_cat_names st0 ui a)
    as [(Hr & _)|[(cn & var & f & now & _ & _ & Hs)|(cn & var & df & msg & _ & _ & Hl)]].
  - by rewrite Hr.
  - apply save_and_continue_Some in Hs as (row & Hrow & Hres & _).
    rewrite Hres. intros r Hr. apply elem_of_upsert in Hr as [->|Hr]; [|auto].
    apply current_item_in_store in Hrow.
    change (coding_id row ∈ map coding_id coding_df).
    apply list_elem_of_In, in_map, list_elem_of_In, Hrow.
  - by eapply load_session_ids_in_store.
Qed.

(** C1 (as amended): for every record list that is not empty, whose records
    have the three required keys and a coding_id of the store, as the
    records of every session state have, whose coding_ids are all numbers or
    all plain text, whose scores are numbers or missing and whose
    categorical fields are absent or plain text, exporting the records and
    resuming from the export against the same store is accepted without a
    warning and gives back the records, in their order, with the same
    coding_id, the same score and the same categorical fields, an absent
    field coming back absent (as a missing cell, not as None); the coded
    identifiers are those of the records and the cursor is where a resume
    puts it, on the first item without a record or on the last item.  So it
    is for the records of every state a session reaches, by commits and by
    resumes, whenever they are not empty and their coding_ids, scores and
    categorical fields are such.  For the session that committed the three
    items of the three-item store the resumed record set has three entries
    equivalent to the originals and the resumed cursor is 2, the last index,
    where the cursor of the exporting session was. *)
Theorem C1_export_then_resume :
  (∀ (coding_df : list item) (rs : list record) (st : session)
     (coder_name variable : value),
     exportable coding_df rs →
     ∃ st' n,
       resume_from_export coding_df rs st coder_name variable
         = (st', (true, Validated n)) ∧
       Forall2 equivalent_records rs (results st') ∧
       coded_ids st' = list_to_set (map coding_id_of rs) ∧
       current_index st' = jump_target coding_df (coded_ids st'))
  ∧ (∀ (coding_df : list item) (data_cat_names : list string)
       (clicks : list (sidebar_input * action)) (st : session)
       (coder_name variable : value),
       let reached := run coding_df data_cat_names fresh_session clicks in
       results reached ≠ [] → csv_safe (results reached) →
       exportable coding_df (results reached) ∧
       ∃ st' n,
         resume_from_export coding_df (results reached) st coder_name variable
           = (st', (true, Validated n)) ∧
         Forall2 equivalent_records (results reached) (results st') ∧
         coded_ids st' = coded_ids reached ∧
         current_index st' = jump_target coding_df (coded_ids reached))
  ∧ (let committed :=
       run Scenario.store Scenario.data_cats fresh_session Scenario.three_saves in
     current_index committed = 2 ∧
     ∃ st',
       resume_from_export Scenario.store (results committed) fresh_session
                          (VStr "Ann") (VStr "Inflation")
         = (st', (true, Validated 3)) ∧
       current_index st' = 2 ∧
       length (results st') = 3%nat ∧
       Forall2 equivalent_records (results committed) (results st')).
Proof.
  split; [intros *; apply export_resume_round_trip|]. split.
  { intros coding_df data_cat_names clicks st coder_name variable reached Hne Hsafe.
    assert (exportable coding_df (results reached)) as Hexp.
    { split; [done|]. split; [apply run_required_keys|]. split; [|done].
      apply list.Forall_forall. apply run_ids_in_store. }
    split; [done|].
    destruct (export_resume_round_trip coding_df (results reached) st coder_name
                variable Hexp) as (st' & n & Hl & Heq & Hcoded & Hidx).
    assert (coded_ids st' = coded_ids reached) as Hsame.
    { rewrite Hcoded. symmetry.
      apply (run_preserves coding_df data_cat_names coded_ids_agree (λ _, True));
        [|by apply Forall_true|done].
      intros st0 ui a _. apply step_keeps_coded_ids_agree. }
    exists st', n. rewrite <- Hsame. done. }
  intros committed. split; [reflexivity|].
  eexists. split; [vm_compute; reflexivity|].
  split; [reflexivity|]. split; [reflexivity|].
  repeat (constructor;
          [split; [reflexivity|]; split; [reflexivity|];
           intros k Hk; unfold categorical_fields in Hk;
           repeat (apply elem_of_cons in Hk as [->|Hk];
                   [first [left; reflexivity
                          | right; split; [by left | by right]]|]);
           by apply elem_of_nil in Hk|]).
  constructor.
Qed.

(** The session that resumes the file with Q1 and Q5 and then commits the
    item it is put on: its two records, one a row of the file with the three
    required keys and one written by the save handler, are given back by
    export and resume. *)
Lemma C1_export_then_resume_witness :
  let clicks := [(Scenario.ann, LoadSession Scenario.q1_q5);
                 (Scenario.ann, SaveAndContinue Scenario.growth "2024-05-01T10:00:00")] in
  let reached := run Scenario.store Scenario.data_cats fresh_session clicks in
  results reached ≠ [] ∧ csv_safe (results reached) ∧
  exportable Scenario.store (results reached) ∧
  ∃ st' n,
    resume_from_export Scenario.store (results reached) fresh_session
                       (VStr "Ann") (VStr "Inflation")
      = (st', (true, Validated n)) ∧
    Forall2 equivalent_records (results reached) (results st') ∧
    coded_ids st' = coded_ids reached ∧
    current_index st' = jump_target Scenario.store (coded_ids reached).
Proof.
  intros clicks reached.
  assert (results reached ≠ []) as Hne.
  { intros H. apply (f_equal length) in H. vm_compute in H. discriminate H. }
  assert (csv_safe (results reached)) as Hsafe.
  { subst reached clicks.
    let e := eval vm_compute in
      (results (run Scenario.store Scenario.data_cats fresh_session
                    [(Scenario.ann, LoadSession Scenario.q1_q5);
                     (Scenario.ann,
                      SaveAndContinue Scenario.growth "2024-05-01T10:00:00")])) in
    change (results (run Scenario.store Scenario.data_cats fresh_session
                    [(Scenario.ann, LoadSession Scenario.q1_q5);
                     (Scenario.ann,
                      SaveAndContinue Scenario.growth "2024-05-01T10:00:00")])) with e.
    unfold csv_safe. split.
    { right. repeat (constructor; [eexists; split; reflexivity|]); constructor. }
    split; [repeat (constructor; [left; eexists; reflexivity|]); constructor|].
    repeat (constructor;
            [intros k Hk; unfold categorical_fields in Hk;
             repeat (apply elem_of_cons in Hk as [->|Hk];
                     [first [left; left; reflexivity
                            | left; right; reflexivity
                            | right; eexists; split; reflexivity]|]);
             by apply elem_of_nil in Hk|]).
    constructor. }
  split; [exact Hne|]. split; [exact Hsafe|].
  exact (proj1 (proj2 C1_export_then_resume) Scenario.store Scenario.data_cats clicks
               fresh_session (VStr "Ann") (VStr "Inflation") Hne Hsafe).
Defined.

(** C1 as stated fails: after the three commits, the export and the resume
    the cursor is 2 and not 3, and the records that had None in a field have
    a missing cell there, so that they are not identical to the originals. *)
Lemma C1_resumed_cursor_is_two :
  let committed :=
    run Scenario.store Scenario.data_cats fresh_session Scenario.three_saves in
  ∃ st' fb,
    resume_from_export Scenario.store (results committed) fresh_session
                       (VStr "Ann") (VStr "Inflation") = (st', fb) ∧
    current_index st' ≠ 3 ∧
    results st' ≠ results committed.
Proof.
  intros committed. eexists _, _.
  split; [vm_compute; reflexivity|]. split; [discriminate|].
  vm_compute. discriminate.
Qed.

(** ** The previous coding of an item *)

(** X1: [get_previous_coding] gives the first record, in the order of the
    list, whose [.get('coding_id')] equals the id asked for under Python's
    [==], and None exactly when no record of the list does: with two
    records of one id, the earlier one is what the form shows.  For an id
    that is NaN (a blank coding_id cell) it gives None whatever the list
    holds, and for an id that is present the record it gives has that id
    under the key coding_id. *)
Theorem get_previous_coding_first (cid : value) (rs : list record) :
  (∀ r, get_previous_coding cid rs = Some r ↔
        ∃ i : nat, rs !! i = Some r ∧
          py_eq (dict_get_default "coding_id" VNone r) cid = true ∧
          ∀ (j : nat) (r' : record),
            (j < i)%nat → rs !! j = Some r' →
            py_eq (dict_get_default "coding_id" VNone r') cid = false) ∧
  (get_previous_coding cid rs = None ↔
     ∀ r, r ∈ rs → py_eq (dict_get_default "coding_id" VNone r) cid = false) ∧
  get_previous_coding VNaN rs = None ∧
  (∀ r, ¬ absent cid → get_previous_coding cid rs = Some r →
        dict_get "coding_id" r = Some cid).
Proof.
  assert (∀ cid rs,
    (∀ r, get_previous_coding cid rs = Some r ↔
        ∃ i : nat, rs !! i = Some r ∧
          py_eq (dict_get_default "coding_id" VNone r) cid = true ∧
          ∀ (j : nat) (r' : record),
            (j < i)%nat → rs !! j = Some r' →
            py_eq (dict_get_default "coding_id" VNone r') cid = false) ∧
    (get_previous_coding cid rs = None ↔
       ∀ r, r ∈ rs → py_eq (dict_get_default "coding_id" VNone r) cid = false))
    as Hfirst.
  { clear. intros cid rs. induction rs as [|r0 rs [IHs IHn]]; simpl.
    - split.
      + intros r. split; [discriminate|]. intros (i & Hi & _). by destruct i.
      + split; [intros _ r Hr; by apply elem_of_nil in Hr | done].
    - destruct (py_eq (dict_get_default "coding_id" VNone r0) cid) eqn:Hr0.
      + split.
        * intros r. split.
          -- intros [= <-]. exists 0%nat. repeat split; [done|]. intros j r' Hj. lia.
          -- intros ([|i] & Hi & Hid & Hbefore); simpl in Hi; [congruence|].
             exfalso. specialize (Hbefore 0%nat r0 ltac:(lia) eq_refl). congruence.
        * split; [discriminate|]. intros H. exfalso.
          specialize (H r0 ltac:(left)). congruence.
      + split.
        * intros r. rewrite IHs. split.
          -- intros (i & Hi & Hid & Hbefore). exists (S i). repeat split; [done..|].
             intros [|j] r' Hj; simpl; [by intros [= <-]|]. apply Hbefore. lia.
          -- intros ([|i] & Hi & Hid & Hbefore); simpl in Hi.
             ++ congruence.
             ++ exists i. repeat split; [done..|]. intros j r' Hj Hr'.
                apply (Hbefore (S j) r'); [lia | done].
        * rewrite IHn. split.
          -- intros H r Hr. apply elem_of_cons in Hr as [->|Hr]; auto.
          -- intros H r Hr. apply H. by right. }
  destruct (Hfirst cid rs) as [Hs Hn]. split; [exact Hs|]. split; [exact Hn|]. split.
  - apply (proj2 (Hfirst VNaN rs)). intros r _. apply py_eq_NaN.
  - intros r Hcid Hr. apply Hs in Hr as (i & _ & Hid & _).
    apply py_eq_true in Hid as [Hid _].
    unfold dict_get_default in Hid.
    destruct (dict_get "coding_id" r) as [v|]; [by rewrite Hid|].
    exfalso. apply Hcid. left. done.
Qed.

(** For an identifier that is not [None], the test of [get_previous_coding]
    and the test of the save loop agree. *)
Lemma get_coding_id_test (r : record) (cid : value) :
  cid ≠ VNone →
  py_eq (dict_get_default "coding_id" VNone r) cid = py_eq (coding_id_of r) cid.
Proof.
  intros Hcid. unfold coding_id_of, field, dict_get_default.
  destruct (dict_get "coding_id" r); [done|].
  destruct cid; done.
Qed.

(** A commit is found again: the first record with the identifier is the
    record just written. *)
Lemma get_previous_coding_upsert (rs : list record) (cid : value) (result : record) :
  ¬ absent cid →
  dict_get "coding_id" result = Some cid →
  get_previous_coding cid (upsert rs cid result) = Some result.
Proof.
  intros Hcid Hres. unfold upsert.
  assert (cid ≠ VNone ∧ cid ≠ VNaN) as [Hnone Hnan]
    by (split; intros ->; apply Hcid; [by left | by right]).
  assert (py_eq (dict_get_default "coding_id" VNone result) cid = true) as Hfound.
  { unfold dict_get_default. rewrite Hres. by apply py_eq_refl. }
  induction rs as [|r rs IH]; simpl.
  - by rewrite Hfound.
  - rewrite <- (get_coding_id_test r cid Hnone).
    destruct (py_eq (dict_get_default "coding_id" VNone r) cid) eqn:Hr; simpl.
    + by rewrite Hfound.
    + destruct (existing_idx cid rs) as [i|]; simpl in *; rewrite Hr; exact IH.
Qed.

(** For a blank identifier nothing is found. *)
Lemma get_previous_coding_NaN (rs : list record) : get_previous_coding VNaN rs = None.
Proof.
  induction rs as [|r rs IH]; simpl; [done|]. by rewrite py_eq_NaN.
Qed.

(** X2: after a click on Save & Continue that commits, the id of the item
    that was shown is in coded_ids, and when the item has a coding_id
    [get_previous_coding] for it gives exactly the record just written (the
    locked name and variable when there are locked ones, the ones of the
    sidebar otherwise): the next visit of the item shows what was saved,
    also when older records of that id were in the list.  For an item whose
    coding_id is blank (NaN) [get_previous_coding] gives None after the
    save: the next visit of the item shows the empty form. *)
Theorem save_then_previous_coding (coding_df : list item) (data_cat_names : list string)
    (st : session) (coder_name variable : value) (f : form) (now : string)
    (st' : session) :
  save_and_continue coding_df data_cat_names st coder_name variable f now = Some st' →
  ∃ row,
    current_item coding_df st = Some row ∧
    coding_id row ∈ coded_ids st' ∧
    (¬ absent (coding_id row) →
     get_previous_coding (coding_id row) (results st')
       = Some (make_result data_cat_names (coding_id row)
                 (default coder_name (locked_coder_name st))
                 (default variable (locked_variable st)) f now)) ∧
    (coding_id row = VNaN →
     get_previous_coding (coding_id row) (results st') = None).
Proof.
  intros Hs. apply save_and_continue_Some in Hs as (row & Hrow & Hres & Hcoded & _).
  exists row. split; [done|]. split; [rewrite Hcoded; set_solver|]. split.
  - intros Hcid. rewrite Hres. by apply get_previous_coding_upsert.
  - intros ->. apply get_previous_coding_NaN.
Qed.

(** The first save of scenario A: Q1 is coded and its record is the one found. *)
Lemma save_then_previous_coding_witness :
  ∃ st' row,
    save_and_continue Scenario.store Scenario.data_cats fresh_session (VStr "Ann")
                      (VStr "Inflation") Scenario.growth "2024-05-01T10:00:00" = Some st' ∧
    current_item Scenario.store fresh_session = Some row ∧
    coding_id row ∈ coded_ids st' ∧
    (¬ absent (coding_id row) →
     get_previous_coding (coding_id row) (results st')
       = Some (make_result Scenario.data_cats (coding_id row) (VStr "Ann")
                           (VStr "Inflation") Scenario.growth "2024-05-01T10:00:00")).
Proof.
  eexists.
  destruct (save_then_previous_coding Scenario.store Scenario.data_cats fresh_session
              (VStr "Ann") (VStr "Inflation") Scenario.growth "2024-05-01T10:00:00"
              _ eq_refl) as (row & Hrow & Hin & Hprev & _).
  exists row. split; [reflexivity|]. split; [exact Hrow|]. split; [exact Hin|exact Hprev].
Defined.

(** X3: a commit touches the records of the current item only: every record
    of another coding_id stays at its index, the list grows by at most one,
    and no id leaves coded_ids. *)
Theorem save_keeps_other_records (coding_df : list item) (data_cat_names : list string)
    (st : session) (coder_name variable : value) (f : form) (now : string)
    (st' : session) (row : item) :
  save_and_continue coding_df data_cat_names st coder_name variable f now = Some st' →
  current_item coding_df st = Some row →
  (∀ (j : nat) (r : record),
     results st !! j = Some r → coding_id_of r ≠ coding_id row →
     results st' !! j = Some r) ∧
  (length (results st) ≤ length (results st') ≤ length (results st) + 1)%nat ∧
  coded_ids st ⊆ coded_ids st'.
Proof.
  intros Hs Hrow.
  apply save_and_continue_Some in Hs as (row' & Hrow' & Hres & Hcoded & _).
  rewrite Hrow in Hrow'. injection Hrow' as <-.
  rewrite Hres, Hcoded. unfold upsert.
  destruct (existing_idx (coding_id row) (results st)) as [i|] eqn:He.
  - destruct (existing_idx_Some _ _ _ He) as (r0 & Hr0 & Hid & _).
    split; [|split; [rewrite length_insert; lia | set_solver]].
    intros j r Hj Hne. rewrite list_lookup_insert_ne; [done|].
    intros ->. rewrite Hr0 in Hj. injection Hj as <-. done.
  - split; [|split; [rewrite length_app; simpl; lia | set_solver]].
    intros j r Hj _. by apply lookup_app_l_Some.
Qed.

(** After the save of Q1, the save of Q2 leaves the record of Q1 in place. *)
Lemma save_keeps_other_records_witness :
  let st := run Scenario.store Scenario.data_cats fresh_session
                (take 1 Scenario.three_saves) in
  ∃ st',
    save_and_continue Scenario.store Scenario.data_cats st (VStr "Ann")
                      (VStr "Inflation") Scenario.survey "2024-05-01T10:01:00" = Some st' ∧
    (∀ (j : nat) (r : record),
       results st !! j = Some r → coding_id_of r ≠ VStr "Q2" →
       results st' !! j = Some r) ∧
    (length (results st) ≤ length (results st') ≤ length (results st) + 1)%nat ∧
    coded_ids st ⊆ coded_ids st'.
Proof.
  intros st. eexists. split; [reflexivity|].
  apply (save_keeps_other_records Scenario.store Scenario.data_cats st
           (VStr "Ann") (VStr "Inflation") Scenario.survey "2024-05-01T10:01:00"
           _ (Item (VStr "Q2") "second quotation")); reflexivity.
Defined.

(** ** "Load Session": refusal and replacement *)

(** X4: when [validate_resume_csv] refuses the uploaded file, Load Session
    returns the validator's message and the session is left as it was:
    results, coded_ids, cursor, locks and widget_version. *)
Theorem refused_load_changes_nothing (coding_df : list item) (data_cat_names : list string)
    (st : session) (ui : sidebar_input) (coder_name variable : value)
    (resume_df : table) :
  (validate_resume_csv resume_df coding_df).1.1 = false →
  load_session coding_df st coder_name variable resume_df
    = (st, (false, (validate_resume_csv resume_df coding_df).1.2)) ∧
  step coding_df data_cat_names st ui (LoadSession resume_df) = st.
Proof.
  intros Hv.
  assert (load_session coding_df st coder_name variable resume_df
          = (st, (false, (validate_resume_csv resume_df coding_df).1.2))) as Hl.
  { unfold load_session.
    destruct (validate_resume_csv resume_df coding_df) as [[is_valid msg] ids].
    simpl in Hv. subst is_valid. reflexivity. }
  split; [exact Hl|].
  unfold step. destruct (sidebar st ui) as [[cn var]|]; [|done].
  destruct (progress_section_runs coding_df st); [|done]. simpl.
  destruct (download_section_runs st cn var); [|done]. simpl.
  unfold load_session.
  destruct (validate_resume_csv resume_df coding_df) as [[is_valid msg] ids].
  simpl in Hv. subst is_valid. reflexivity.
Qed.

(** A file without the column score, after one save. *)
Lemma refused_load_changes_nothing_witness :
  let st := run Scenario.store Scenario.data_cats fresh_session
                (take 1 Scenario.three_saves) in
  (validate_resume_csv no_score_column Scenario.store).1.1 = false ∧
  load_session Scenario.store st (VStr "Ann") (VStr "Inflation") no_score_column
    = (st, (false, (validate_resume_csv no_score_column Scenario.store).1.2)) ∧
  step Scenario.store Scenario.data_cats st Scenario.ann (LoadSession no_score_column) = st.
Proof.
  intros st.
  assert ((validate_resume_csv no_score_column Scenario.store).1.1 = false) as Hv
    by (vm_compute; reflexivity).
  split; [exact Hv|].
  exact (refused_load_changes_nothing Scenario.store Scenario.data_cats st Scenario.ann
           (VStr "Ann") (VStr "Inflation") no_score_column Hv).
Defined.

(** ** The runs of the script and the frame *)


(** A run that loads the frame [coding_df] is a [step] on that frame. *)
Lemma main_same_frame (samples : string → option (list item)) (coding_df : list item)
    (data_cat_names : list string) (st : session)
    (c : sidebar_input * data_source * action) :
  loads_frame samples coding_df st c →
  main samples data_cat_names st c.1.1 c.1.2 c.2
  = step coding_df data_cat_names st c.1.1 c.2.
Proof.
  unfold loads_frame, main.
  destruct (sidebar st c.1.1) as [[cn var]|] eqn:Hs.
  - intros H. by rewrite (H cn var eq_refl).
  - intros _. unfold step. by rewrite Hs.
Qed.

(** A session whose runs all load the frame [coding_df] is a [run] on that
    frame. *)
Lemma main_runs_same_frame (samples : string → option (list item))
    (coding_df : list item) (data_cat_names : list string)
    (clicks : list (sidebar_input * data_source * action)) (st : session) :
  every_run_loads samples coding_df data_cat_names st clicks →
  main_runs samples data_cat_names st clicks
  = run coding_df data_cat_names st (map button clicks).
Proof.
  revert st. induction clicks as [|c clicks IH]; intros st; simpl; [done|].
  intros [Hc Hrest]. rewrite IH by done.
  by rewrite (main_same_frame samples coding_df).
Qed.


(** The three saves on the default sample load the store in every run. *)
Lemma three_saves_on_sample_loads :
  every_run_loads inflation_sample Scenario.store Scenario.data_cats fresh_session
                  three_saves_on_sample.
Proof.
  unfold three_saves_on_sample, Scenario.three_saves. cbn [map every_run_loads].
  repeat split; intros cn var Hs; vm_compute in Hs; injection Hs as <- <-; reflexivity.
Qed.

(** ** A load replaces the session *)



(** ** The cursor *)

Lemma jump_target_bounds (coding_df : list item) (coded : gset value) :
  coding_df ≠ [] →
  0 <= jump_target coding_df coded < Z.of_nat (length coding_df).
Proof.
  intros Hne.
  destruct (jump_target_spec coding_df coded) as [(i & it & -> & Hi & _)|[_ ->]].
  - apply lookup_lt_Some in Hi. lia.
  - destruct coding_df; [done|]. simpl length. lia.
Qed.

Lemma step_keeps_cursor_in_store (coding_df : list item) (data_cat_names : list string)
    (st : session) (ui : sidebar_input) (a : action) :
  coding_df ≠ [] →
  0 <= current_index st < total_arguments coding_df →
  0 <= current_index (step coding_df data_cat_names st ui a) < total_arguments coding_df.
Proof.
  intros Hne Hst. unfold step.
  destruct (sidebar st ui) as [[cn var]|]; [|done].
  destruct (progress_section_runs coding_df st); [|done]. simpl.
  destruct (download_section_runs st cn var); [|done]. simpl.
  destruct a as [f now|resume_df| | |jump_to|].
  - destruct (save_and_continue _ _ st cn var f now) as [st'|] eqn:Hs; [|done].
    apply save_and_continue_Some in Hs as (_ & _ & _ & _ & _ & _ & _ & ->).
    destruct (current_index st <? total_arguments coding_df - 1) eqn:Hlt; [|done].
    apply Z.ltb_lt in Hlt. lia.
  - destruct (load_session coding_df st cn var resume_df) as [st' [[] msg]] eqn:Hl.
    + simpl. apply load_session_accepts in Hl as (_ & _ & _ & _ & -> & _).
      by apply jump_target_bounds.
    + simpl. apply load_session_refuses in Hl. by subst.
  - unfold previous. destruct (current_item coding_df st); [|done].
    destruct (current_index st =? 0) eqn:H0; [done|].
    apply Z.eqb_neq in H0. simpl. lia.
  - unfold skip. destruct (current_item coding_df st); [|done].
    destruct (current_index st =? total_arguments coding_df - 1) eqn:H0; [done|].
    apply Z.eqb_neq in H0. simpl. lia.
  - unfold go. destruct (current_item coding_df st); [|done].
    destruct ((1 <=? jump_to) && (jump_to <=? total_arguments coding_df)) eqn:Hj; [|done].
    apply andb_true_iff in Hj as [H1 H2]. apply Z.leb_le in H1, H2. simpl. lia.
  - unfold return_to_start.
    destruct (current_index st <? total_arguments coding_df); [done|].
    simpl. lia.
Qed.

(** The cursor of a session on one frame stays within the frame. *)
Lemma run_cursor_in_store (coding_df : list item) (data_cat_names : list string)
    (clicks : list (sidebar_input * action)) :
  coding_df ≠ [] →
  0 <= current_index (run coding_df data_cat_names fresh_session clicks)
    < total_arguments coding_df.
Proof.
  intros Hne.
  apply (run_preserves coding_df data_cat_names
           (λ st, 0 <= current_index st < total_arguments coding_df) (λ _, True));
    [|by apply Forall_true|].
  - intros st0 ui a _. by apply step_keeps_cursor_in_store.
  - unfold total_arguments. destruct coding_df; [done|]. simpl. lia.
Qed.

(** X6: in a session whose runs all load one frame that is not empty (the
    data source and the variable in force are not changed to another
    frame), after any clicks from a fresh session the cursor is within the
    frame, 0 <= current_index < total_arguments, an item is at the cursor,
    and the page "All arguments have been reviewed!" (with its button
    Return to Start) is not the one shown. *)
Theorem cursor_stays_in_store (samples : string → option (list item))
    (coding_df : list item) (data_cat_names : list string)
    (clicks : list (sidebar_input * data_source * action)) :
  coding_df ≠ [] →
  every_run_loads samples coding_df data_cat_names fresh_session clicks →
  let st := main_runs samples data_cat_names fresh_session clicks in
  0 <= current_index st < total_arguments coding_df ∧
  (∃ row, iloc coding_df (current_index st) = Some row) ∧
  session_complete_page coding_df st = false.
Proof.
  intros Hne Hloads st.
  assert (0 <= current_index st < total_arguments coding_df) as Hin.
  { subst st. rewrite (main_runs_same_frame samples coding_df) by done.
    by apply run_cursor_in_store. }
  split; [done|]. split.
  - unfold iloc. rewrite (proj2 (Z.leb_le _ _)) by lia.
    apply lookup_lt_is_Some_2. unfold total_arguments in Hin. lia.
  - unfold session_complete_page. apply negb_false_iff, Z.ltb_lt. lia.
Qed.

(** After the three saves of scenario A on the default sample the cursor is
    on the last item. *)
Lemma cursor_stays_in_store_witness :
  Scenario.store ≠ [] ∧
  every_run_loads inflation_sample Scenario.store Scenario.data_cats fresh_session
                  three_saves_on_sample ∧
  let st := main_runs inflation_sample Scenario.data_cats fresh_session
                      three_saves_on_sample in
  0 <= current_index st < 3 ∧
  (∃ row, iloc Scenario.store (current_index st) = Some row) ∧
  session_complete_page Scenario.store st = false.
Proof.
  assert (Scenario.store ≠ []) as Hne by discriminate.
  split; [exact Hne|]. split; [exact three_saves_on_sample_loads|].
  exact (cursor_stays_in_store inflation_sample Scenario.store Scenario.data_cats
           three_saves_on_sample Hne three_saves_on_sample_loads).
Defined.

(** ** The identifiers of a session and those of the store *)





(** ** Joining and splitting the data categories *)

Lemma split_aux_no_separator (x : string) (acc : list ascii) :
  has_separator x = false →
  split_aux x acc = [string_of_list_ascii (rev acc ++ list_ascii_of_string x)].
Proof.
  revert acc. induction x as [|c x IH]; intros acc Hx.
  - simpl. by rewrite app_nil_r.
  - destruct x as [|c' x'].
    + simpl. first [reflexivity | by rewrite <- app_assoc].
    + rewrite split_aux_two.
      change (has_separator (String c (String c' x')))
        with ((Ascii.eqb c ";" && Ascii.eqb c' " ") || has_separator (String c' x')) in Hx.
      apply orb_false_elim in Hx as [-> Hx].
      rewrite IH by done. simpl. first [reflexivity | by rewrite <- app_assoc].
Qed.

Lemma split_aux_separator (x rest : string) (acc : list ascii) :
  has_separator x = false →
  split_aux (x +:+ "; " +:+ rest) acc
  = string_of_list_ascii (rev acc ++ list_ascii_of_string x) :: split_aux rest [].
Proof.
  revert acc. induction x as [|c x IH]; intros acc Hx.
  - change ("" +:+ "; " +:+ rest) with (String ";" (String " " rest)).
    rewrite split_aux_two. simpl. by rewrite app_nil_r.
  - destruct x as [|c' x'].
    + change (String c "" +:+ "; " +:+ rest)
        with (String c (String ";" (String " " rest))).
      rewrite split_aux_two.
      assert (Ascii.eqb c ";" && Ascii.eqb ";" " " = false) as ->
        by (destruct (Ascii.eqb c ";"); reflexivity).
      rewrite split_aux_two. simpl. first [reflexivity | by rewrite <- app_assoc].
    + change (String c (String c' x') +:+ "; " +:+ rest)
        with (String c (String c' (x' +:+ "; " +:+ rest))).
      rewrite split_aux_two.
      change (has_separator (String c (String c' x')))
        with ((Ascii.eqb c ";" && Ascii.eqb c' " ") || has_separator (String c' x')) in Hx.
      apply orb_false_elim in Hx as [-> Hx].
      change (String c' (x' +:+ "; " +:+ rest)) with (String c' x' +:+ "; " +:+ rest).
      rewrite IH by done. simpl. first [reflexivity | by rewrite <- app_assoc].
Qed.

(** The split of a joined list. *)
Lemma split_semicolon_join (l : list string) :
  l ≠ [] → Forall (λ name, has_separator name = false) l →
  split_semicolon (join "; " l) = l.
Proof.
  intros Hne Hall. unfold split_semicolon.
  induction Hall as [|x l Hx Hl IH]; [done|].
  destruct l as [|y l].
  - simpl join. rewrite split_aux_no_separator by done. simpl.
    by rewrite string_of_list_ascii_of_string.
  - change (join "; " (x :: y :: l)) with (x +:+ "; " +:+ join "; " (y :: l)).
    rewrite split_aux_separator by done. simpl rev. simpl app.
    rewrite string_of_list_ascii_of_string. f_equal. by apply IH.
Qed.

(** X8: the split at "; " that fills the check boxes undoes the join with
    "; " that Save writes: for a list of names that is not empty, none of
    which holds "; ", splitting the joined text gives the list back. *)
Theorem split_join_round_trip (l : list string) :
  l ≠ [] → Forall (λ name, has_separator name = false) l →
  split_semicolon (join "; " l) = l.
Proof. exact (split_semicolon_join l). Qed.

(** A category and "Other / No Good Match". *)
Lemma split_join_round_trip_witness :
  ["Labor Market"; OTHER] ≠ [] ∧
  Forall (λ name, has_separator name = false) ["Labor Market"; OTHER] ∧
  split_semicolon "Labor Market; Other / No Good Match" = ["Labor Market"; OTHER].
Proof.
  assert (["Labor Market"; OTHER] ≠ []) as Hne by discriminate.
  assert (Forall (λ name, has_separator name = false) ["Labor Market"; OTHER]) as Hall
    by (repeat constructor).
  split; [exact Hne|]. split; [exact Hall|].
  exact (split_join_round_trip ["Labor Market"; OTHER] Hne Hall).
Defined.

(** ** The defaults of the form *)

Lemma checked_names_elem_of (names : list string) (checked : list bool) (x : string) :
  x ∈ checked_names names checked → x ∈ names.
Proof.
  revert checked. induction names as [|n names IH]; intros [|c checked]; simpl;
    try (intros H; by apply elem_of_nil in H).
  destruct c; [|intros H; right; eauto].
  intros H. apply elem_of_cons in H as [->|H]; [left | right; eauto].
Qed.

Lemma filter_ext_in {A} (P Q : A → Prop) `{∀ x, Decision (P x)} `{∀ x, Decision (Q x)}
    (l : list A) :
  (∀ x, x ∈ l → (P x ↔ Q x)) → filter P l = filter Q l.
Proof.
  induction l as [|a l IH]; intros Hpq; [done|].
  rewrite !filter_cons.
  assert (filter P l = filter Q l) as -> by (apply IH; intros x Hx; apply Hpq; by right).
  destruct (decide (P a)) as [Hp|Hp], (decide (Q a)) as [Hq|Hq]; try done;
    exfalso; apply (Hpq a ltac:(left)) in Hp || apply (Hpq a ltac:(left)) in Hq; done.
Qed.

Lemma checked_names_decide (names L : list string) :
  checked_names names (map (λ n, bool_decide (n ∈ L)) names) = filter (λ n, n ∈ L) names.
Proof.
  induction names as [|n names IH]; [done|]. simpl. rewrite filter_cons.
  case_bool_decide as Hn.
  - rewrite decide_True by done. by rewrite IH.
  - rewrite decide_False by done. exact IH.
Qed.

(** The names checked are, among names that are all different, exactly the
    names that are among the names checked. *)
Lemma filter_checked_names (names : list string) (checked : list bool) :
  NoDup names →
  filter (λ n, n ∈ checked_names names checked) names = checked_names names checked.
Proof.
  intros Hnd. revert checked.
  induction Hnd as [|n names Hn Hnd IH]; intros checked; [done|].
  destruct checked as [|c checked].
  - simpl. apply filter_none, list.Forall_forall. intros x _ Hx. by apply elem_of_nil in Hx.
  - simpl. destruct c.
    + rewrite filter_cons, decide_True by left. f_equal.
      transitivity (filter (λ x, x ∈ checked_names names checked) names); [|apply IH].
      apply filter_ext_in.
      intros x Hx. rewrite elem_of_cons. split; [|auto].
      intros [->|Hin]; [done | done].
    + rewrite filter_cons, decide_False; [apply IH|].
      intros Hin. apply checked_names_elem_of in Hin. done.
Qed.

Lemma join_not_empty (l : list string) :
  l ≠ [] → Forall (λ name, name ≠ "") l → join "; " l ≠ "".
Proof.
  intros Hne Hall. destruct Hall as [|x l Hx Hl]; [done|].
  destruct x as [|c x]; [done|]. destruct l; discriminate.
Qed.

Lemma list_index_nth (a : string) (options : list string) :
  a ∈ options →
  ∃ i, list_index a options = Some i ∧ nth i options OTHER = a.
Proof.
  induction options as [|o options IH]; intros Hin; [by apply elem_of_nil in Hin|].
  simpl. destruct (String.eqb_spec a o) as [->|Hne]; [by exists 0%nat|].
  apply elem_of_cons in Hin as [->|Hin]; [done|].
  destruct (IH Hin) as (i & -> & Hi). by exists (S i).
Qed.

Lemma OTHER_splittable : splittable OTHER.
Proof. split; [discriminate | reflexivity]. Qed.

(** The data categories of the form, and those read back from the record
    that was made of them. *)
Lemma prev_data_cats_make_result (data_cat_names : list string)
    (cid coder variable : value) (f : form) (now : string) :
  Forall splittable data_cat_names →
  prev_data_cats (Some (make_result data_cat_names cid coder variable f now))
  = form_data_categories data_cat_names f.
Proof.
  intros Hnames. unfold prev_data_cats, prev_field, make_result, dict_get_default.
  cbn [dict_get String.eqb Ascii.eqb Bool.eqb].
  destruct (form_data_categories data_cat_names f) as [|x l] eqn:HL; [done|].
  assert (Forall splittable (x :: l)) as Hall.
  { rewrite <- HL. apply list.Forall_forall. intros y Hy.
    unfold form_data_categories in Hy. destruct (cites_data f); [|by apply elem_of_nil in Hy].
    apply elem_of_app in Hy as [Hy|Hy].
    - apply checked_names_elem_of in Hy. rewrite list.Forall_forall in Hnames. auto.
    - destruct (data_cat_other_checked f); [|by apply elem_of_nil in Hy].
      apply list_elem_of_singleton in Hy as ->. apply OTHER_splittable. }
  assert (join "; " (x :: l) ≠ "") as Hj.
  { apply join_not_empty; [done|]. eapply list.Forall_impl; [exact Hall|]. by intros y [? _]. }
  destruct (String.eqb_spec (join "; " (x :: l)) "") as [He|_]; [done|].
  apply split_semicolon_join; [done|].
  eapply list.Forall_impl; [exact Hall|]. by intros y [_ ?].
Qed.

Lemma make_result_ext (data_cat_names : list string) (cid coder variable : value)
    (f1 f2 : form) (now : string) :
  score f1 = score f2 →
  cites_data f1 = cites_data f2 →
  form_data_categories data_cat_names f1 = form_data_categories data_cat_names f2 →
  form_data_category_other f1 = form_data_category_other f2 →
  form_information_type f1 = form_information_type f2 →
  argument_category f1 = argument_category f2 →
  form_argument_category_other f1 = form_argument_category_other f2 →
  notes f1 = notes f2 →
  make_result data_cat_names cid coder variable f1 now
  = make_result data_cat_names cid coder variable f2 now.
Proof.
  intros H1 H2 H3 H4 H5 H6 H7 H8. unfold make_result.
  by rewrite H1, H2, H3, H4, H5, H6, H7, H8.
Qed.

(** The check boxes that start checked for the record of a form are those
    that were checked in the form. *)
Lemma default_boxes_make_result (data_cat_names : list string)
    (cid coder variable : value) (f : form) (now : string) :
  NoDup data_cat_names → OTHER ∉ data_cat_names → Forall splittable data_cat_names →
  cites_data f = Yes →
  let r := make_result data_cat_names cid coder variable f now in
  checked_names data_cat_names (default_checked data_cat_names (Some r))
    = checked_names data_cat_names (data_cat_checked f) ∧
  default_other_checked (Some r) = data_cat_other_checked f.
Proof.
  intros Hnd Hother Hnames Hyes r. subst r.
  unfold default_checked, default_other_checked.
  rewrite prev_data_cats_make_result by done.
  unfold form_data_categories. rewrite Hyes.
  set (C := checked_names data_cat_names (data_cat_checked f)).
  assert (OTHER ∉ C) as HC.
  { intros Hin. apply checked_names_elem_of in Hin. done. }
  split.
  - rewrite checked_names_decide.
    transitivity (filter (λ n, n ∈ C) data_cat_names); [|by apply filter_checked_names].
    apply filter_ext_in. intros x Hx. rewrite elem_of_app. split; [|auto].
    intros [Hin|Hin]; [done|].
    destruct (data_cat_other_checked f); [|by apply elem_of_nil in Hin].
    apply list_elem_of_singleton in Hin as ->. done.
  - destruct (data_cat_other_checked f).
    + apply bool_decide_eq_true. apply elem_of_app. right. left.
    + apply bool_decide_eq_false. rewrite app_nil_r. done.
Qed.

(** X9: showing a saved item again and saving without touching a widget
    writes the same record, but for the timestamp: when the data category
    names are distinct, not empty, without "; " and not "Other / No Good
    Match", and the saved category is one of the select box, the form at the
    defaults read from the record gives the record of the form that was
    saved. *)
Theorem save_again_unchanged (data_cat_names var_category_names : list string)
    (cid coder variable : value) (f : form) (now now' : string) :
  NoDup data_cat_names → OTHER ∉ data_cat_names → Forall splittable data_cat_names →
  argument_category f ∈ category_options var_category_names →
  let previous_coding := make_result data_cat_names cid coder variable f now in
  make_result data_cat_names cid coder variable
              (default_form data_cat_names var_category_names (Some previous_coding)) now'
  = make_result data_cat_names cid coder variable f now'.
Proof.
  intros Hnd Hother Hnames Harg r.
  set (F := default_form data_cat_names var_category_names (Some r)).
  assert (cites_data F = cites_data f) as Hcites
    by (subst F r; unfold default_form, default_cites_data, prev_field, make_result,
          dict_get_default; cbn; destruct (cites_data f); reflexivity).
  assert (argument_category F = argument_category f) as Hcat.
  { subst F. unfold default_form. simpl. unfold default_cat_index.
    assert (prev_arg_cat (category_options var_category_names) (Some r)
            = argument_category f) as -> by reflexivity.
    destruct (list_index_nth _ _ Harg) as (i & -> & Hi). exact Hi. }
  assert (cites_data f = Yes →
          checked_names data_cat_names (data_cat_checked F)
            = checked_names data_cat_names (data_cat_checked f) ∧
          data_cat_other_checked F = data_cat_other_checked f) as Hboxes.
  { intros Hyes. by apply default_boxes_make_result. }
  apply make_result_ext.
  - reflexivity.
  - exact Hcites.
  - unfold form_data_categories. rewrite Hcites.
    destruct (cites_data f) eqn:Hyes; [|done].
    destruct (Hboxes eq_refl) as [-> ->]. done.
  - unfold form_data_category_other. rewrite Hcites.
    destruct (cites_data f) eqn:Hyes; [|done].
    destruct (Hboxes eq_refl) as [_ ->].
    destruct (data_cat_other_checked f) eqn:Ho; [|done].
    subst F r. unfold default_form, prev_data_other, prev_field, make_result,
      dict_get_default, form_data_category_other. cbn. by rewrite Hyes, Ho.
  - unfold form_information_type. rewrite Hcites.
    destruct (cites_data f) eqn:Hyes; [|done].
    subst F r. unfold default_form, default_information_type, prev_field, make_result,
      dict_get_default, form_information_type. cbn. rewrite Hyes.
    by destruct (information_type f).
  - exact Hcat.
  - unfold form_argument_category_other. rewrite Hcat.
    destruct (String.eqb (argument_category f) OTHER) eqn:Ho; [|done].
    subst F r. unfold default_form, prev_arg_other, prev_field, make_result,
      dict_get_default, form_argument_category_other. cbn. by rewrite Ho.
  - reflexivity.
Qed.

(** The record of Q2 of scenario A, shown and saved again the next day. *)
Lemma save_again_unchanged_witness :
  NoDup Scenario.data_cats ∧ (OTHER ∉ Scenario.data_cats) ∧
  Forall splittable Scenario.data_cats ∧
  argument_category Scenario.survey ∈ category_options ["Growth"; "Prices"] ∧
  make_result Scenario.data_cats (VStr "Q2") (VStr "Ann") (VStr "Inflation")
    (default_form Scenario.data_cats ["Growth"; "Prices"]
       (Some (make_result Scenario.data_cats (VStr "Q2") (VStr "Ann") (VStr "Inflation")
                          Scenario.survey "2024-05-01T10:01:00")))
    "2024-05-02T09:00:00"
  = make_result Scenario.data_cats (VStr "Q2") (VStr "Ann") (VStr "Inflation")
                Scenario.survey "2024-05-02T09:00:00".
Proof.
  assert (NoDup Scenario.data_cats) as Hnd.
  { apply (bool_decide_unpack (NoDup Scenario.data_cats)). vm_compute. exact I. }
  assert (OTHER ∉ Scenario.data_cats) as Ho.
  { apply (bool_decide_unpack (OTHER ∉ Scenario.data_cats)). vm_compute. exact I. }
  assert (Forall splittable Scenario.data_cats) as Hs.
  { repeat (constructor; [split; [discriminate | reflexivity]|]). constructor. }
  assert (argument_category Scenario.survey ∈ category_options ["Growth"; "Prices"])
    as Ha by (repeat constructor).
  split; [exact Hnd|]. split; [exact Ho|]. split; [exact Hs|]. split; [exact Ha|].
  exact (save_again_unchanged Scenario.data_cats ["Growth"; "Prices"] (VStr "Q2")
           (VStr "Ann") (VStr "Inflation") Scenario.survey "2024-05-01T10:01:00"
           "2024-05-02T09:00:00" Hnd Ho Hs Ha).
Defined.

Lemma prev_field_absent (k : string) (dflt : value) (r : record) :
  (∀ v, dict_get k r = Some v → absent v) →
  prev_field k dflt (Some r) = dflt ∨ absent (prev_field k dflt (Some r)).
Proof.
  intros H. unfold prev_field, dict_get_default.
  destruct (dict_get k r) as [v|]; [right; by apply H | by left].
Qed.

Lemma first_option_index (var_category_names : list string) :
  let options := category_options var_category_names in
  list_index (hd OTHER options) options = Some 0%nat ∧
  nth 0 options OTHER = hd OTHER options.
Proof.
  unfold category_options. destruct var_category_names as [|v vs]; simpl.
  - done.
  - by rewrite String.eqb_refl.
Qed.

(** X10: a record whose optional fields are missing or hold no value (None or
    NaN, as the columns of a resume file that has the required columns only)
    gives the form of an item never coded, but for the score: "No", no box
    checked, empty texts, "Public Information", the first category; the
    isinstance tests keep NaN out of every widget. *)
Theorem defaults_without_text_fields (data_cat_names var_category_names : list string)
    (r : record) :
  (∀ k v, k ∈ optional_keys → dict_get k r = Some v → absent v) →
  default_form data_cat_names var_category_names (Some r)
  = Form (default_score (Some r)) No (map (λ _, false) data_cat_names) false ""
         PublicInformation (hd OTHER (category_options var_category_names)) "" "" ∧
  default_form data_cat_names var_category_names None
  = Form 0 No (map (λ _, false) data_cat_names) false ""
         PublicInformation (hd OTHER (category_options var_category_names)) "" "".
Proof.
  intros Habs.
  assert (∀ k dflt, k ∈ optional_keys →
            prev_field k dflt (Some r) = dflt ∨ absent (prev_field k dflt (Some r)))
    as Hfield.
  { intros k dflt Hk. apply prev_field_absent. intros v. by apply Habs. }
  assert (∀ previous_coding,
            prev_data_cats previous_coding = [] →
            default_checked data_cat_names previous_coding
              = map (λ _, false) data_cat_names ∧
            default_other_checked previous_coding = false) as Hboxes.
  { intros pc Hpc. unfold default_checked, default_other_checked. rewrite Hpc. split.
    - apply map_ext. intros n. apply bool_decide_eq_false. intros H.
      by apply elem_of_nil in H.
    - apply bool_decide_eq_false. intros H. by apply elem_of_nil in H. }
  destruct (first_option_index var_category_names) as [Hidx Hnth]. cbv zeta in *.
  split.
  - assert (prev_data_cats (Some r) = []) as Hcats.
    { unfold prev_data_cats.
      destruct (Hfield "data_categories" (VStr "") ltac:(unfold optional_keys; repeat constructor))
        as [-> | [-> | ->]]; reflexivity. }
    destruct (Hboxes (Some r) Hcats) as [Hc Ho].
    unfold default_form. rewrite Hc, Ho. f_equal.
    + unfold default_cites_data.
      destruct (Hfield "cites_data" (VStr "No") ltac:(unfold optional_keys; repeat constructor))
        as [-> | [-> | ->]]; reflexivity.
    + unfold prev_data_other.
      destruct (Hfield "data_category_other" (VStr "")
                  ltac:(unfold optional_keys; repeat constructor))
        as [-> | [-> | ->]]; reflexivity.
    + unfold default_information_type.
      destruct (Hfield "information_type" (VStr "Public Information")
                  ltac:(unfold optional_keys; repeat constructor))
        as [-> | [-> | ->]]; reflexivity.
    + assert (prev_arg_cat (category_options var_category_names) (Some r)
              = hd OTHER (category_options var_category_names)) as Hprev.
      { unfold prev_arg_cat. cbv zeta.
        destruct (Hfield "argument_category"
                    (VStr (hd OTHER (category_options var_category_names)))
                    ltac:(unfold optional_keys; repeat constructor))
          as [-> | [-> | ->]]; reflexivity. }
      unfold default_cat_index. by rewrite Hprev, Hidx.
    + unfold prev_arg_other.
      destruct (Hfield "argument_category_other" (VStr "")
                  ltac:(unfold optional_keys; repeat constructor))
        as [-> | [-> | ->]]; reflexivity.
    + unfold prev_notes.
      destruct (Hfield "notes" (VStr "") ltac:(unfold optional_keys; repeat constructor))
        as [-> | [-> | ->]]; reflexivity.
  - destruct (Hboxes None eq_refl) as [Hc Ho].
    unfold default_form. rewrite Hc, Ho. f_equal.
    unfold default_cat_index.
    change (prev_arg_cat (category_options var_category_names) None)
      with (hd OTHER (category_options var_category_names)).
    by rewrite Hidx.
Qed.

(** A record with the required keys only. *)
Lemma defaults_without_text_fields_witness :
  (∀ k v, k ∈ optional_keys → dict_get k required_only = Some v → absent v) ∧
  default_form Scenario.data_cats ["Growth"; "Prices"] (Some required_only)
  = Form 1 No [false; false] false "" PublicInformation "Growth" "" "".
Proof.
  assert (∀ k v, k ∈ optional_keys → dict_get k required_only = Some v → absent v) as H.
  { intros k v Hk. unfold optional_keys in Hk.
    repeat (apply elem_of_cons in Hk as [->|Hk]; [discriminate|]).
    by apply elem_of_nil in Hk. }
  split; [exact H|].
  exact (proj1 (defaults_without_text_fields Scenario.data_cats ["Growth"; "Prices"]
                  required_only H)).
Defined.

(** ** The score widget *)









(** ** The locked values of a session without a resume *)




(** ** Clicks that change nothing, clicks that only move the cursor *)

(** X13: while the typed name is empty and no name is locked the script stops
    in the sidebar: whatever is clicked from a fresh session, the session
    stays the fresh one. *)
Theorem nothing_without_a_name (coding_df : list item) (data_cat_names : list string)
    (clicks : list (sidebar_input * action)) :
  Forall (λ click, typed_name click.1 = "") clicks →
  run coding_df data_cat_names fresh_session clicks = fresh_session.
Proof.
  induction 1 as [|[ui a] clicks Hname Hrest IH]; [done|].
  simpl in *. unfold step, sidebar. simpl. by rewrite Hname.
Qed.

(** Save, Load Session and Skip with an empty name. *)
Lemma nothing_without_a_name_witness :
  let clicks := [(SidebarInput "" Inflation, SaveAndContinue Scenario.growth "t");
                 (SidebarInput "" Employment, LoadSession Scenario.q1_q5);
                 (SidebarInput "" Inflation, Skip)] in
  Forall (λ click, typed_name click.1 = "") clicks ∧
  run Scenario.store Scenario.data_cats fresh_session clicks = fresh_session.
Proof.
  intros clicks.
  assert (Forall (λ click, typed_name click.1 = "") clicks) as H by (repeat constructor).
  split; [exact H|].
  exact (nothing_without_a_name Scenario.store Scenario.data_cats clicks H).
Defined.

Lemma same_records_trans (st1 st2 st3 : session) :
  same_records st1 st2 → same_records st2 st3 → same_records st1 st3.
Proof.
  intros (H1 & H2 & H3 & H4) (H1' & H2' & H3' & H4'). unfold same_records.
  by rewrite H1', H2', H3', H4'.
Qed.

Lemma step_navigation (coding_df : list item) (data_cat_names : list string)
    (st : session) (ui : sidebar_input) (a : action) :
  is_navigation (ui, a) →
  same_records st (step coding_df data_cat_names st ui a) ∧
  widget_version (step coding_df data_cat_names st ui a) = widget_version st.
Proof.
  intros Hnav. unfold step.
  destruct (sidebar st ui) as [[cn var]|]; [|done].
  destruct (progress_section_runs coding_df st); [|done]. simpl.
  destruct (download_section_runs st cn var); [|done]. simpl.
  destruct a as [f now|resume_df| | |jump_to|]; try destruct Hnav.
  - split; [apply previous_same_records|]. unfold previous.
    destruct (current_item coding_df st); [|done].
    by destruct (current_index st =? 0).
  - split; [apply skip_same_records|]. unfold skip.
    destruct (current_item coding_df st); [|done].
    by destruct (current_index st =? total_arguments coding_df - 1).
  - split; [apply go_same_records|]. unfold go.
    destruct (current_item coding_df st); [|done].
    by destruct ((1 <=? jump_to) && (jump_to <=? total_arguments coding_df)).
  - split; [apply return_to_start_same_records|]. unfold return_to_start.
    by destruct (current_index st <? total_arguments coding_df).
Qed.

(** X14: Previous, Skip, Go and Return to Start move the cursor only: after
    any number of them results, coded_ids, the locks and widget_version are
    what they were. *)
Theorem navigation_never_writes (coding_df : list item) (data_cat_names : list string)
    (st : session) (clicks : list (sidebar_input * action)) :
  Forall is_navigation clicks →
  let st' := run coding_df data_cat_names st clicks in
  results st' = results st ∧ coded_ids st' = coded_ids st ∧
  locked_coder_name st' = locked_coder_name st ∧
  locked_variable st' = locked_variable st ∧
  widget_version st' = widget_version st.
Proof.
  intros Hnav. revert st.
  induction Hnav as [|[ui a] clicks Ha Hrest IH]; intros st; [done|].
  simpl. destruct (step_navigation coding_df data_cat_names st ui a Ha)
    as [(H1 & H2 & H3 & H4) H5].
  destruct (IH (step coding_df data_cat_names st ui a)) as (G1 & G2 & G3 & G4 & G5).
  cbv zeta in *. by rewrite G1, G2, G3, G4, G5.
Qed.

(** Skip, Previous and Go to 3 after one save. *)
Lemma navigation_never_writes_witness :
  let st := run Scenario.store Scenario.data_cats fresh_session
                (take 1 Scenario.three_saves) in
  let clicks := [(Scenario.ann, Skip); (Scenario.ann, Previous); (Scenario.ann, Go 3)] in
  Forall is_navigation clicks ∧
  results (run Scenario.store Scenario.data_cats st clicks) = results st ∧
  current_index (run Scenario.store Scenario.data_cats st clicks) = 2.
Proof.
  intros st clicks.
  assert (Forall is_navigation clicks) as H by (repeat constructor).
  split; [exact H|]. split; [|reflexivity].
  exact (proj1 (navigation_never_writes Scenario.store Scenario.data_cats st clicks H)).
Defined.

(** X15: on an item that is not the last, when the item after it is in the
    store, Skip moves the cursor by one and Previous brings the session
    back to what it was; Skip again gives the session after the first
    Skip. *)
Theorem previous_undoes_skip (coding_df : list item) (st : session) (row next : item) :
  current_item coding_df st = Some row →
  0 <= current_index st →
  current_index st ≠ total_arguments coding_df - 1 →
  current_item coding_df (skip coding_df st) = Some next →
  current_index (skip coding_df st) = current_index st + 1 ∧
  previous coding_df (skip coding_df st) = st ∧
  skip coding_df (previous coding_df (skip coding_df st)) = skip coding_df st.
Proof.
  intros Hrow Hpos Hlast Hnext.
  assert (skip coding_df st
          = Session (current_index st + 1) (results st) (coded_ids st)
                    (widget_version st) (locked_coder_name st) (locked_variable st))
    as Hskip.
  { unfold skip. rewrite Hrow.
    by rewrite (proj2 (Z.eqb_neq _ _) Hlast). }
  assert (previous coding_df (skip coding_df st) = st) as Hprev.
  { unfold previous. rewrite Hnext. rewrite Hskip. simpl.
    rewrite (proj2 (Z.eqb_neq _ _)) by lia.
    replace (current_index st + 1 - 1) with (current_index st) by lia.
    by destruct st. }
  split; [by rewrite Hskip|]. split; [done | by rewrite Hprev].
Qed.

(** Skip and Previous on the first item of the store. *)
Lemma previous_undoes_skip_witness :
  current_item Scenario.store fresh_session = Some (Item (VStr "Q1") "first quotation") ∧
  current_index (skip Scenario.store fresh_session) = 1 ∧
  previous Scenario.store (skip Scenario.store fresh_session) = fresh_session.
Proof.
  split; [reflexivity|].
  destruct (previous_undoes_skip Scenario.store fresh_session
              (Item (VStr "Q1") "first quotation") (Item (VStr "Q2") "second quotation")
              eq_refl ltac:(simpl; lia) ltac:(discriminate) eq_refl) as (H1 & H2 & _).
  split; [exact H1 | exact H2].
Defined.

(** ** The exported file *)




Lemma read_missing_word (dt : dtype) (s : string) :
  is_na s = true → read_cell dt s = VNaN.
Proof.
  intros Hna. destruct dt; simpl; [|by rewrite Hna].
  destruct (parse_int s) as [z|] eqn:Hz; [|done].
  exfalso. unfold is_na in Hna. apply bool_decide_eq_true in Hna.
  unfold na_values in Hna.
  repeat (apply elem_of_cons in Hna as [->|Hna]; [vm_compute in Hz; discriminate|]).
  by apply elem_of_nil in Hna.
Qed.

(** X17: what the export loses: in the file read back, a field that held
    no value, the empty text, or a text that pandas reads as missing ("NA",
    "None", "null", "nan", ...) is NaN, so notes that are one of these words
    do not come back. *)
Theorem missing_words_are_lost (rs : list record) :
  rs ≠ [] → Forall (λ r, map fst r = result_keys) rs →
  Forall2 (λ r r',
             ∀ k, k ∈ result_keys →
               (absent (field k r) ∨ ∃ s, field k r = VStr s ∧ is_na s = true) →
               field k r' = VNaN)
          rs (to_dict_records (read_csv (get_results_csv rs))).
Proof.
  intros Hne Hshape.
  rewrite (read_csv_export result_keys) by (done || apply result_keys_NoDup).
  unfold to_dict_records. cbn [columns rows]. rewrite map_map.
  apply Forall2_map_diag. intros r Hr k Hk Hlost. cbn beta.
  rewrite (field_row_dict_map result_keys
             (λ k, read_cell (exported_dtype rs k) (cell_text (field k r))) k Hk).
  destruct Hlost as [Habs|(s & Hs & Hna)].
  - by apply read_absent_cell.
  - rewrite Hs. simpl. by apply read_missing_word.
Qed.

(** A record with the notes "None": the notes and the information type, which
    is None since no data is cited, are NaN in the file read back. *)
Lemma missing_words_are_lost_witness :
  let rs := [make_result Scenario.data_cats (VStr "Q1") (VStr "Ann") (VStr "Inflation")
               (Form 0 No [false; false] false "" PublicInformation "Growth" "" "None")
               "2024-05-01T10:00:00"] in
  rs ≠ [] ∧ Forall (λ r, map fst r = result_keys) rs ∧
  ∃ r', to_dict_records (read_csv (get_results_csv rs)) = [r'] ∧
        field "notes" r' = VNaN ∧ field "information_type" r' = VNaN.
Proof.
  intros rs.
  assert (rs ≠ []) as Hne by discriminate.
  assert (Forall (λ r, map fst r = result_keys) rs) as Hshape by (repeat constructor).
  split; [exact Hne|]. split; [exact Hshape|].
  pose proof (missing_words_are_lost rs Hne Hshape) as H.
  destruct (to_dict_records (read_csv (get_results_csv rs))) as [|r' rest] eqn:Hrs;
    [inversion H|].
  apply Forall2_cons_1 in H as [Hr' Hrest]. apply Forall2_nil_inv_l in Hrest as ->.
  exists r'. split; [reflexivity|]. split.
  - apply Hr'; [unfold result_keys; repeat constructor|].
    right. exists "None". split; reflexivity.
  - apply Hr'; [unfold result_keys; repeat constructor|].
    left. left. reflexivity.
Defined.
